(** * Payload validators of the viper-duel server

    A shallow embedding of
    [examples/viper-duel/server/src/utils/validators.js] and the proofs of
    its contract.

    The file has three layers:
    - the part of the JavaScript run time the validators rest on: values,
      [typeof], truthiness, [SameValueZero] and [Array.prototype.includes],
      property reads, [console.log], and the backtracking matcher behind
      [RegExp.prototype.test];
    - the six exported functions, transcribed statement by statement;
    - the theorems. *)

From Stdlib Require Import Bool String Ascii List NArith ZArith Lia Floats.
Import ListNotations.

Set Warnings "-inexact-float,-register-all".

(* ================================================================== *)
(** * JavaScript values *)
(* ================================================================== *)

Module JS.

(** A string is its sequence of UTF-16 code units. *)
Definition code_unit := N.
Definition js_string := list code_unit.

(** The code units of an ASCII literal of the source. *)
Definition cu (c : ascii) : code_unit := N_of_ascii c.
Definition js (s : string) : js_string := map cu (list_ascii_of_string s).

(** The language's values.  A number is a binary64 float (the kernel's
    primitive floats are binary64 with a single NaN, as the language
    observes them).  An object carries its identity, whether it is callable
    (a function) and its data properties: a payload is the deserialized
    body of a message, so its objects, arrays included, hold plain data
    properties, without accessors. *)
Inductive value : Type :=
| VUndefined
| VNull
| VBoolean (b : bool)
| VNumber (x : float)
| VBigInt (z : Z)
| VString (s : js_string)
| VSymbol (id : N)
| VObject (ref : N) (callable : bool) (props : list (js_string * value)).

(** The [typeof] operator. *)
Definition typeof (v : value) : string :=
  match v with
  | VUndefined => "undefined"
  | VNull => "object"
  | VBoolean _ => "boolean"
  | VNumber _ => "number"
  | VBigInt _ => "bigint"
  | VString _ => "string"
  | VSymbol _ => "symbol"
  | VObject _ callable _ => if callable then "function" else "object"
  end.

(** [ToBoolean]: the falsy values are [undefined], [null], [false], [+0],
    [-0], [NaN], [0n] and the empty string. *)
Definition ToBoolean (v : value) : bool :=
  match v with
  | VUndefined | VNull => false
  | VBoolean b => b
  | VNumber x => negb (PrimFloat.eqb x 0 || PrimFloat.is_nan x)
  | VBigInt z => negb (z =? 0)%Z
  | VString s => match s with [] => false | _ :: _ => true end
  | VSymbol _ => true
  | VObject _ _ _ => true
  end.

Fixpoint js_string_eqb (s t : js_string) : bool :=
  match s, t with
  | [], [] => true
  | a :: s', b :: t' => (a =? b)%N && js_string_eqb s' t'
  | _, _ => false
  end.

(** [SameValueZero], the comparison [includes] uses: values of different
    types differ; two numbers are the same when both are NaN or when they
    are equal as floats (so [+0] and [-0] are the same); the other types
    compare their contents, objects and symbols their identity. *)
Definition SameValueZero (x y : value) : bool :=
  match x, y with
  | VUndefined, VUndefined => true
  | VNull, VNull => true
  | VBoolean a, VBoolean b => Bool.eqb a b
  | VNumber a, VNumber b =>
      (PrimFloat.is_nan a && PrimFloat.is_nan b) || PrimFloat.eqb a b
  | VBigInt a, VBigInt b => (a =? b)%Z
  | VString a, VString b => js_string_eqb a b
  | VSymbol a, VSymbol b => (a =? b)%N
  | VObject a _ _, VObject b _ _ => (a =? b)%N
  | _, _ => false
  end.

(** [arr.includes(searchElement)]: the elements are compared in order with
    [SameValueZero]. *)
Definition includes (arr : list value) (searchElement : value) : bool :=
  existsb (fun elementK => SameValueZero searchElement elementK) arr.

(** [x === undefined]. *)
Definition is_undefined (v : value) : bool :=
  match v with VUndefined => true | _ => false end.

(** [a || b]: the left operand when it is truthy, else the right one. *)
Definition logical_or (a b : value) : value :=
  if ToBoolean a then a else b.

(** [o.key], a property read.  On an object it is the property's value, or
    [undefined] when the object has no such property (none of the keys read
    in this file is on a built-in prototype).  Every read of the validators
    sits behind the guard [!payload || typeof payload !== 'object'], so only
    the object case is ever reached (see [guard_object]). *)
Fixpoint lookup (key : js_string) (props : list (js_string * value)) : value :=
  match props with
  | [] => VUndefined
  | (k, v) :: rest => if js_string_eqb k key then v else lookup key rest
  end.

Definition Get (o : value) (key : string) : value :=
  match o with
  | VObject _ _ props => lookup (js key) props
  | _ => VUndefined
  end.

(** The console: the argument lists of the [console.log] calls so far, the
    oldest first. *)
Definition Console := list (list value).

Definition console_log (args : list value) (console : Console) : Console :=
  console ++ [args].

End JS.
Import JS.

(* ================================================================== *)
(** * Regular expressions *)
(* ================================================================== *)

(** The patterns of this file use literal characters, character classes,
    the bounded quantifier [{n}], the assertions [^] and [$], and
    concatenation. *)
Inductive ClassAtom : Type :=
| ClassChar (c : ascii)
| ClassRange (lo hi : ascii).

Inductive Regex : Type :=
| Empty
| Char (c : ascii)
| Class (atoms : list ClassAtom)
| Quant (r : Regex) (n : nat)
| Seq (r1 r2 : Regex)
| AssertBegin
| AssertEnd.

(** A pattern's terms in sequence. *)
Definition Alternative (terms : list Regex) : Regex :=
  fold_right Seq Empty terms.

(** The characters a class denotes. *)
Definition atom_chars (a : ClassAtom) : list code_unit :=
  match a with
  | ClassChar c => [cu c]
  | ClassRange lo hi =>
      map N.of_nat (seq (N.to_nat (cu lo)) (N.to_nat (cu hi) + 1 - N.to_nat (cu lo)))
  end.

Definition CharSet (atoms : list ClassAtom) : list code_unit :=
  flat_map atom_chars atoms.

(** A position of the matcher in the input: the index reached and the
    code units from there on. *)
Record MatchState : Type := mkState {
  endIndex : nat;
  rest : js_string
}.

Definition advance (x : MatchState) (w : js_string) (u : js_string) : MatchState :=
  {| endIndex := endIndex x + length w; rest := u |}.

(** Upper case within ASCII: the letters [a] to [z] move to [A] to [Z]. *)
Definition ascii_upper (ch : code_unit) : code_unit :=
  if (97 <=? ch)%N && (ch <=? 122)%N then (ch - 32)%N else ch.

Section Validators.

(** The upper-case form of a code unit outside ASCII, as the Unicode case
    conversion table of the run time gives it (a sequence of code units);
    the development holds for every such table. *)
Variable unicode_upper : code_unit -> js_string.

Definition toUppercase (ch : code_unit) : js_string :=
  if (ch <? 128)%N then [ascii_upper ch] else unicode_upper ch.

(** [Canonicalize] of a pattern without the [u] flag: under [i] a code
    unit is compared through its upper-case form when that is one code
    unit, except that a non-ASCII unit never folds onto an ASCII one. *)
Definition Canonicalize (ignoreCase : bool) (ch : code_unit) : code_unit :=
  if negb ignoreCase then ch
  else match toUppercase ch with
       | [u] => if (128 <=? ch)%N && (u <? 128)%N then ch else u
       | _ => ch
       end.

(** [CharacterSetMatcher]: the input's code unit matches a set when some
    member of the set has the same canonical form. *)
Definition char_matches (ignoreCase : bool) (A : list code_unit) (ch : code_unit) : bool :=
  existsb (fun a => (Canonicalize ignoreCase a =? Canonicalize ignoreCase ch)%N) A.

Definition CharacterSetMatcher (ignoreCase : bool) (A : list code_unit)
    (x : MatchState) (c : MatchState -> bool) : bool :=
  match rest x with
  | [] => false
  | ch :: u =>
      if char_matches ignoreCase A ch
      then c {| endIndex := endIndex x + 1; rest := u |}
      else false
  end.

(** The backtracking matcher in continuation-passing style: [matcher r x c]
    tries to match [r] at [x] and hands every state it can reach to the
    continuation [c]. *)
Fixpoint matcher (ignoreCase : bool) (r : Regex) (x : MatchState)
    (c : MatchState -> bool) {struct r} : bool :=
  match r with
  | Empty => c x
  | Char a => CharacterSetMatcher ignoreCase [cu a] x c
  | Class atoms => CharacterSetMatcher ignoreCase (CharSet atoms) x c
  | Quant r' n =>
      (fix RepeatMatcher (k : nat) (y : MatchState) {struct k} : bool :=
         match k with
         | O => c y
         | S k' => matcher ignoreCase r' y (fun z => RepeatMatcher k' z)
         end) n x
  | Seq r1 r2 =>
      matcher ignoreCase r1 x (fun y => matcher ignoreCase r2 y c)
  | AssertBegin => if Nat.eqb (endIndex x) 0 then c x else false
  | AssertEnd => match rest x with [] => c x | _ :: _ => false end
  end.

(** [RegExpBuiltinExec] for a pattern without the [g] and [y] flags: the
    match is tried at index 0, then at each later index up to the length of
    the input. *)
Fixpoint exec_from (ignoreCase : bool) (r : Regex) (lastIndex : nat)
    (input : js_string) {struct input} : bool :=
  if matcher ignoreCase r {| endIndex := lastIndex; rest := input |} (fun _ => true)
  then true
  else match input with
       | [] => false
       | _ :: input' => exec_from ignoreCase r (S lastIndex) input'
       end.

(** A regular expression literal: its pattern and its [i] flag. *)
Record RegExp : Type := mkRegExp {
  pattern : Regex;
  ignoreCase_flag : bool
}.

(** [re.test(v)].  [test] coerces its argument to a string; every call of
    this file sits behind [typeof v === 'string' &&], so only the string
    case is reached, and the other cases are given the value of the
    conjunction there. *)
Definition RegExp_test (re : RegExp) (v : value) : bool :=
  match v with
  | VString s => exec_from (ignoreCase_flag re) (pattern re) 0 s
  | _ => false
  end.

(* ================================================================== *)
(** * The validators *)
(* ================================================================== *)

(** The result object of the two payload validators: [success] is always
    there, the other fields only where the source writes them. *)
Record ValidationResult : Type := mkResult {
  success : bool;
  error : option string;
  isCreating : option bool;
  isJoining : option bool
}.

(** [{ success: false, error: msg }] *)
Definition failure (msg : string) : ValidationResult :=
  {| success := false; error := Some msg; isCreating := None; isJoining := None |}.

(** [/^0x[a-fA-F0-9]{40}$/] *)
Definition address_re : RegExp :=
  {| pattern :=
       Seq AssertBegin
         (Seq (Alternative
                 [Char "0"; Char "x";
                  Quant (Class [ClassRange "a" "f"; ClassRange "A" "F";
                                ClassRange "0" "9"]) 40])
              AssertEnd);
     ignoreCase_flag := false |}.

(** [[0-9a-f]] *)
Definition hex : Regex := Class [ClassRange "0" "9"; ClassRange "a" "f"].

(** [/^[0-9a-f]{8}-[0-9a-f]{4}-4[0-9a-f]{3}-[89ab][0-9a-f]{3}-[0-9a-f]{12}$/i] *)
Definition room_id_re : RegExp :=
  {| pattern :=
       Seq AssertBegin
         (Seq (Alternative
                 [Quant hex 8; Char "-";
                  Quant hex 4; Char "-";
                  Char "4"; Quant hex 3; Char "-";
                  Class [ClassChar "8"; ClassChar "9"; ClassChar "a"; ClassChar "b"];
                  Quant hex 3; Char "-";
                  Quant hex 12])
              AssertEnd);
     ignoreCase_flag := true |}.

(** [isValidEthereumAddress], validators.js lines 10-14. *)
Definition isValidEthereumAddress (address : value) : bool :=
  (typeof address =? "string")%string
  && RegExp_test address_re address.

(** [isValidRoomId], lines 21-25. *)
Definition isValidRoomId (roomId : value) : bool :=
  (typeof roomId =? "string")%string
  && RegExp_test room_id_re roomId.

(** [isValidDirection], lines 32-34. *)
Definition isValidDirection (direction : value) : bool :=
  (typeof direction =? "string")%string
  && includes [VString (js "UP"); VString (js "DOWN");
               VString (js "LEFT"); VString (js "RIGHT")] direction.

(** [[0, 0.01, 0.1, 1, 2]]: a decimal literal denotes the binary64 float
    nearest to it, here as in the source language. *)
Definition validAmounts : list value :=
  [VNumber 0; VNumber 0.01; VNumber 0.1; VNumber 1; VNumber 2].

(** [isValidBetAmount], lines 41-44. *)
Definition isValidBetAmount (betAmount : value) : bool :=
  (typeof betAmount =? "number")%string && includes validAmounts betAmount.

(** [validateJoinRoomPayload], lines 54-88.  A validator of a payload
    takes the console with it: it returns its result and the console as it
    leaves it. *)
Definition validateJoinRoomPayload (payload : value) (console : Console)
    : ValidationResult * Console :=
  if negb (ToBoolean payload) || negb (typeof payload =? "object")%string then
    (failure "Invalid payload format", console)
  else if negb (ToBoolean (Get payload "eoa")) then
    (failure "Ethereum address is required", console)
  else if negb (isValidEthereumAddress (Get payload "eoa")) then
    (failure "Invalid Ethereum address format", console)
  else if negb (is_undefined (Get payload "betAmount"))
          && negb (isValidBetAmount (Get payload "betAmount")) then
    (failure "Invalid bet amount. Must be 0, 0.01, 0.1, 1, or 2", console)
  else if is_undefined (Get payload "roomId") then
    let console := console_log
          [VString (js "Creating new room with bet amount:");
           logical_or (Get payload "betAmount") (VNumber 0)] console in
    ({| success := true; error := None;
        isCreating := Some true; isJoining := None |}, console)
  else
    if negb (isValidRoomId (Get payload "roomId")) then
      (failure "Invalid room ID format", console)
    else
    let console := console_log
          [VString (js "Joining existing room:"); Get payload "roomId";
           VString (js "with bet amount:");
           logical_or (Get payload "betAmount") (VNumber 0)] console in
    ({| success := true; error := None;
        isCreating := None; isJoining := Some true |}, console).

(** [validateDirectionPayload], lines 97-119. *)
Definition validateDirectionPayload (payload : value) (console : Console)
    : ValidationResult * Console :=
  if negb (ToBoolean payload) || negb (typeof payload =? "object")%string then
    (failure "Invalid payload format", console)
  else if negb (ToBoolean (Get payload "roomId")) then
    (failure "Room ID is required", console)
  else if negb (isValidRoomId (Get payload "roomId")) then
    (failure "Invalid room ID format", console)
  else if negb (ToBoolean (Get payload "direction")) then
    (failure "Direction is required", console)
  else if negb (isValidDirection (Get payload "direction")) then
    (failure "Invalid direction format (must be UP, DOWN, LEFT, or RIGHT)", console)
  else
    ({| success := true; error := None;
        isCreating := None; isJoining := None |}, console).

(** ** The language of a pattern

    What a pattern without assertions matches, as a set of strings: the
    reference the matcher is proved against. *)
Fixpoint power (L : js_string -> Prop) (n : nat) (w : js_string) : Prop :=
  match n with
  | O => w = []
  | S k => exists w1 w2, w = w1 ++ w2 /\ L w1 /\ power L k w2
  end.

Fixpoint lang (ignoreCase : bool) (r : Regex) (w : js_string) : Prop :=
  match r with
  | Empty => w = []
  | Char a => exists ch, w = [ch] /\ char_matches ignoreCase [cu a] ch = true
  | Class atoms =>
      exists ch, w = [ch] /\ char_matches ignoreCase (CharSet atoms) ch = true
  | Quant r' n => power (lang ignoreCase r') n w
  | Seq r1 r2 =>
      exists w1 w2, w = w1 ++ w2 /\ lang ignoreCase r1 w1 /\ lang ignoreCase r2 w2
  | AssertBegin | AssertEnd => False
  end.

Fixpoint assertion_free (r : Regex) : bool :=
  match r with
  | Empty | Char _ | Class _ => true
  | Quant r' _ => assertion_free r'
  | Seq r1 r2 => assertion_free r1 && assertion_free r2
  | AssertBegin | AssertEnd => false
  end.

End Validators.

(* ================================================================== *)
(** * The validators on the state of the run time *)
(* ================================================================== *)

(** What a call can find changed by an earlier call: the pattern objects,
    each with its [lastIndex], and the console.  A regular expression
    literal makes a new pattern object each time it is evaluated, and
    [test] reads and writes the [lastIndex] of a pattern with the [g] or
    the [y] flag. *)
Module Run.

Record RegExpObject : Type := mkRegExpObject {
  OriginalSource : Regex;
  ignoreCase : bool;
  global : bool;
  sticky : bool;
  lastIndex : nat
}.

Definition set_lastIndex (R : RegExpObject) (i : nat) : RegExpObject :=
  {| OriginalSource := OriginalSource R; ignoreCase := ignoreCase R;
     global := global R; sticky := sticky R; lastIndex := i |}.

Record Realm : Type := mkRealm {
  regexps : list RegExpObject;
  console : Console
}.

(** A computation on the realm. *)
Definition M (A : Type) : Type := Realm -> A * Realm.

Definition ret {A} (a : A) : M A := fun realm => (a, realm).

Definition bind {A B} (m : M A) (k : A -> M B) : M B :=
  fun realm => let (a, realm') := m realm in k a realm'.

Notation "x <- m ;; k" := (bind m (fun x => k))
  (at level 61, m at next level, right associativity).
Notation "m ;;; k" := (bind m (fun _ => k))
  (at level 61, right associativity).

(** [console.log(...args)] *)
Definition log (args : list value) : M unit :=
  fun realm =>
    (tt, {| regexps := regexps realm;
            console := console_log args (console realm) |}).

Fixpoint update {A} (l : list A) (i : nat) (a : A) : list A :=
  match l, i with
  | [], _ => []
  | _ :: l', O => a :: l'
  | b :: l', S i' => b :: update l' i' a
  end.

(** A result of [exec] that is not [null]. *)
Definition is_match {A} (m : option A) : bool :=
  match m with Some _ => true | None => false end.

Definition has_flag (f : ascii) (flags : string) : bool :=
  existsb (Ascii.eqb f) (list_ascii_of_string flags).

(** The evaluation of a literal [/pattern/flags]: a new pattern object,
    with [lastIndex] 0; the result is its place among the pattern
    objects. *)
Definition RegExpCreate (P : Regex) (flags : string) : M nat :=
  fun realm =>
    (List.length (regexps realm),
     {| regexps := regexps realm
                   ++ [{| OriginalSource := P;
                          ignoreCase := has_flag "i" flags;
                          global := has_flag "g" flags;
                          sticky := has_flag "y" flags;
                          lastIndex := 0 |}];
        console := console realm |}).

Section WithTable.

Variable unicode_upper : code_unit -> js_string.

(** The matcher of [matcher], with the state reached in place of a
    boolean: the end of the match is what [lastIndex] is set to. *)
Definition CharacterSetMatcher_state (ic : bool) (A : list code_unit)
    (x : MatchState) (c : MatchState -> option MatchState) : option MatchState :=
  match rest x with
  | [] => None
  | ch :: u =>
      if char_matches unicode_upper ic A ch
      then c {| endIndex := endIndex x + 1; rest := u |}
      else None
  end.

Fixpoint matcher_state (ic : bool) (r : Regex) (x : MatchState)
    (c : MatchState -> option MatchState) {struct r} : option MatchState :=
  match r with
  | Empty => c x
  | Char a => CharacterSetMatcher_state ic [cu a] x c
  | Class atoms => CharacterSetMatcher_state ic (CharSet atoms) x c
  | Quant r' n =>
      (fix RepeatMatcher (k : nat) (y : MatchState) {struct k} : option MatchState :=
         match k with
         | O => c y
         | S k' => matcher_state ic r' y (fun z => RepeatMatcher k' z)
         end) n x
  | Seq r1 r2 => matcher_state ic r1 x (fun y => matcher_state ic r2 y c)
  | AssertBegin => if Nat.eqb (endIndex x) 0 then c x else None
  | AssertEnd => match rest x with [] => c x | _ :: _ => None end
  end.

(** The loop of [RegExpBuiltinExec]: the match is tried at [index]; when
    it fails, a sticky pattern gives up and another moves one code unit
    on, until the index passes the end of the input. *)
Fixpoint exec_loop (R : RegExpObject) (index : nat) (input : js_string)
    {struct input} : option nat :=
  match matcher_state (ignoreCase R) (OriginalSource R)
          {| endIndex := index; rest := input |} (fun y => Some y) with
  | Some y => Some (endIndex y)
  | None =>
      if sticky R then None
      else match input with
           | [] => None
           | _ :: input' => exec_loop R (S index) input'
           end
  end.

(** [RegExpBuiltinExec(R, S)]: the end of the match, or [None] for
    [null], and the pattern object as the call leaves it.  Without [g] and
    [y] the search starts at 0 and [lastIndex] is left alone; with one of
    them it starts at [lastIndex], which a match moves to its end and a
    failure puts back to 0. *)
Definition RegExpBuiltinExec (R : RegExpObject) (S : js_string)
    : option nat * RegExpObject :=
  let moves := global R || sticky R in
  let start := if moves then lastIndex R else 0 in
  if (List.length S <? start)%nat then
    (None, if moves then set_lastIndex R 0 else R)
  else
    match exec_loop R start (skipn start S) with
    | None => (None, if moves then set_lastIndex R 0 else R)
    | Some e => (Some e, if moves then set_lastIndex R e else R)
    end.

(** [re.test(v)] for the pattern object at [re].  As for [RegExp_test],
    the calls sit behind [typeof v === 'string' &&]. *)
Definition test (re : nat) (v : value) : M bool :=
  fun realm =>
    match nth_error (regexps realm) re, v with
    | Some R, VString s =>
        let (m, R') := RegExpBuiltinExec R s in
        (is_match m,
         {| regexps := update (regexps realm) re R';
            console := console realm |})
    | _, _ => (false, realm)
    end.

(** The six functions, lines 10-119. *)
Definition isValidEthereumAddress (address : value) : M bool :=
  if (typeof address =? "string")%string then
    re <- RegExpCreate (pattern address_re) "" ;;
    test re address
  else ret false.

Definition isValidRoomId (roomId : value) : M bool :=
  if (typeof roomId =? "string")%string then
    re <- RegExpCreate (pattern room_id_re) "i" ;;
    test re roomId
  else ret false.

Definition isValidDirection (direction : value) : M bool :=
  ret ((typeof direction =? "string")%string
       && includes [VString (js "UP"); VString (js "DOWN");
                    VString (js "LEFT"); VString (js "RIGHT")] direction).

Definition isValidBetAmount (betAmount : value) : M bool :=
  ret ((typeof betAmount =? "number")%string && includes validAmounts betAmount).

Definition validateJoinRoomPayload (payload : value) : M ValidationResult :=
  if negb (ToBoolean payload) || negb (typeof payload =? "object")%string then
    ret (failure "Invalid payload format")
  else if negb (ToBoolean (Get payload "eoa")) then
    ret (failure "Ethereum address is required")
  else
    validAddress <- isValidEthereumAddress (Get payload "eoa") ;;
    if negb validAddress then
      ret (failure "Invalid Ethereum address format")
    else
    invalidBet <- (if negb (is_undefined (Get payload "betAmount")) then
                     validBet <- isValidBetAmount (Get payload "betAmount") ;;
                     ret (negb validBet)
                   else ret false) ;;
    if invalidBet then
      ret (failure "Invalid bet amount. Must be 0, 0.01, 0.1, 1, or 2")
    else if is_undefined (Get payload "roomId") then
      log [VString (js "Creating new room with bet amount:");
           logical_or (Get payload "betAmount") (VNumber 0)] ;;;
      ret {| success := true; error := None;
             isCreating := Some true; isJoining := None |}
    else
      validRoom <- isValidRoomId (Get payload "roomId") ;;
      if negb validRoom then
        ret (failure "Invalid room ID format")
      else
      log [VString (js "Joining existing room:"); Get payload "roomId";
           VString (js "with bet amount:");
           logical_or (Get payload "betAmount") (VNumber 0)] ;;;
      ret {| success := true; error := None;
             isCreating := None; isJoining := Some true |}.

Definition validateDirectionPayload (payload : value) : M ValidationResult :=
  if negb (ToBoolean payload) || negb (typeof payload =? "object")%string then
    ret (failure "Invalid payload format")
  else if negb (ToBoolean (Get payload "roomId")) then
    ret (failure "Room ID is required")
  else
    validRoom <- isValidRoomId (Get payload "roomId") ;;
    if negb validRoom then
      ret (failure "Invalid room ID format")
    else if negb (ToBoolean (Get payload "direction")) then
      ret (failure "Direction is required")
    else
    validDirection <- isValidDirection (Get payload "direction") ;;
    if negb validDirection then
      ret (failure "Invalid direction format (must be UP, DOWN, LEFT, or RIGHT)")
    else
      ret {| success := true; error := None;
             isCreating := None; isJoining := None |}.

(** What a function returns on a first call, and on a second call made
    in the realm the first call leaves. *)
Definition first_result {A} (f : value -> M A) (input : value)
    (realm : Realm) : A :=
  fst (f input realm).

Definition second_result {A} (f : value -> M A) (input : value)
    (realm : Realm) : A :=
  fst (f input (snd (f input realm))).

(** For contrast, the address test written with one pattern object, made
    once with the [g] flag and kept between the calls. *)
Definition test_with_kept_pattern (re : nat) (address : value) : M bool :=
  if (typeof address =? "string")%string then test re address else ret false.

End WithTable.

End Run.

(* ================================================================== *)
(** * The textual forms of the contract *)
(* ================================================================== *)

Definition in_range (lo hi : ascii) (ch : code_unit) : Prop :=
  (cu lo <= ch <= cu hi)%N.

(** A hexadecimal character, in either case. *)
Definition hex_digit (ch : code_unit) : Prop :=
  in_range "0" "9" ch \/ in_range "a" "f" ch \/ in_range "A" "F" ch.

(** A group of [n] hexadecimal characters. *)
Definition hex_group (n : nat) (w : js_string) : Prop :=
  List.length w = n /\ Forall hex_digit w.

(** ['0x'] followed by 40 hexadecimal characters. *)
Definition ethereum_address_form (s : js_string) : Prop :=
  exists w, s = js "0x" ++ w /\ hex_group 40 w.

(** The variant nibble: one of 8, 9, a, b, in either case. *)
Definition variant_nibble (ch : code_unit) : Prop :=
  In ch (js "89abAB").

(** UUID version 4: hexadecimal groups of 8, 4, 4, 4 and 12 characters
    separated by hyphens, the third starting with the version nibble [4]
    and the fourth with the variant nibble. *)
Definition uuid_v4_form (s : js_string) : Prop :=
  exists g1 g2 g3 g4 g5,
    s = g1 ++ js "-" ++ g2 ++ js "-" ++ g3 ++ js "-" ++ g4 ++ js "-" ++ g5
    /\ hex_group 8 g1 /\ hex_group 4 g2 /\ hex_group 4 g3
    /\ hex_group 4 g4 /\ hex_group 12 g5
    /\ hd_error g3 = Some (cu "4")
    /\ exists v, hd_error g4 = Some v /\ variant_nibble v.

(** Two strings that differ at most in the case of their ASCII letters. *)
Definition same_up_to_case (s t : js_string) : Prop :=
  Forall2 (fun a b => ascii_upper a = ascii_upper b) s t.

(** A code unit of the ASCII range. *)
Definition is_ascii (ch : code_unit) : Prop := (ch < 128)%N.

(** The error messages of the two payload validators. *)
Definition join_errors : list string :=
  ["Invalid payload format"; "Ethereum address is required";
   "Invalid Ethereum address format";
   "Invalid bet amount. Must be 0, 0.01, 0.1, 1, or 2";
   "Invalid room ID format"]%string.

Definition direction_errors : list string :=
  ["Invalid payload format"; "Room ID is required"; "Invalid room ID format";
   "Direction is required";
   "Invalid direction format (must be UP, DOWN, LEFT, or RIGHT)"]%string.

(** The payload is an object: it passes the first guard of the two payload
    validators. *)
Definition object_payload (payload : value) : Prop :=
  ToBoolean payload = true /\ typeof payload = "object"%string.

(** ** Sample inputs *)
Module Sample.

(** A case table that leaves every code unit outside ASCII as it is. *)
Definition plain_table : code_unit -> js_string := fun ch => [ch].

Definition address : value :=
  VString (js "0xaaaaaaaaaaaaaaaaaaaaaaaaaaaaaaaaaaaaaaaa").
Definition room : value := VString (js "123e4567-e89b-42d3-a456-426614174000").
Definition room_v1 : value := VString (js "123e4567-e89b-12d3-a456-426614174000").

(** An object literal [{k1: v1, ...}]. *)
Definition object (fields : list (string * value)) : value :=
  VObject 1 false (map (fun f => (js (fst f), snd f)) fields).

(** [{eoa: address, roomId: null}], and the same with a bet of 5. *)
Definition null_room : value :=
  object [("eoa", address); ("roomId", VNull)]%string.
Definition null_room_bet_5 : value :=
  object [("eoa", address); ("betAmount", VNumber 5); ("roomId", VNull)]%string.

(** The room id of [room] in lower and in upper case. *)
Definition room_lower : js_string := js "123e4567-e89b-42d3-a456-426614174000".
Definition room_upper : js_string := js "123E4567-E89B-42D3-A456-426614174000".

(** [{eoa: address, betAmount: -0}] and [{eoa: address, betAmount: null}]. *)
Definition create_minus_zero : value :=
  object [("eoa", address); ("betAmount", VNumber (-0))]%string.
Definition bet_null : value :=
  object [("eoa", address); ("betAmount", VNull)]%string.

End Sample.

(* ================================================================== *)
(** * The matcher against the language of a pattern *)
(* ================================================================== *)

Section MatcherCorrect.

Variable unicode_upper : code_unit -> js_string.

Local Abbreviation matcher' := (matcher unicode_upper).
Local Abbreviation lang' := (lang unicode_upper).

Lemma advance_advance x w1 u1 w2 u2 :
  advance (advance x w1 u1) w2 u2 = advance x (w1 ++ w2) u2.
Proof.
  unfold advance; simpl. rewrite length_app, Nat.add_assoc. reflexivity.
Qed.

Lemma advance_nil x : advance x [] (rest x) = x.
Proof.
  destruct x as [e u]; unfold advance; simpl. rewrite Nat.add_0_r. reflexivity.
Qed.

Lemma CharacterSetMatcher_spec ic A x c :
  CharacterSetMatcher unicode_upper ic A x c = true <->
  exists ch u, rest x = ch :: u
               /\ char_matches unicode_upper ic A ch = true
               /\ c (advance x [ch] u) = true.
Proof.
  unfold CharacterSetMatcher, advance; simpl.
  destruct (rest x) as [|ch u]; split.
  - discriminate.
  - intros (ch & u & H & _); discriminate.
  - destruct (char_matches unicode_upper ic A ch) eqn:E; [|discriminate].
    intros H; exists ch, u; auto.
  - intros (ch' & u' & H & Hm & Hc). injection H as -> ->.
    rewrite Hm. exact Hc.
Qed.

(** The matcher reaches exactly the states that lie one word of the
    pattern's language further in the input. *)
Lemma matcher_lang ic r :
  assertion_free r = true ->
  forall x c,
    matcher' ic r x c = true <->
    exists w u, rest x = w ++ u /\ lang' ic r w /\ c (advance x w u) = true.
Proof.
  induction r as [|a|atoms|r IH n|r1 IH1 r2 IH2| |]; simpl; intros Hfree x c;
    try discriminate.
  - (* Empty *)
    split.
    + intros H. exists [], (rest x). rewrite advance_nil; auto.
    + intros (w & u & Hx & -> & Hc). simpl in Hx. rewrite <- Hx, advance_nil in Hc.
      exact Hc.
  - (* Char *)
    rewrite CharacterSetMatcher_spec; split.
    + intros (ch & u & Hx & Hm & Hc). exists [ch], u; eauto.
    + intros (w & u & Hx & (ch & -> & Hm) & Hc). exists ch, u; auto.
  - (* Class *)
    rewrite CharacterSetMatcher_spec; split.
    + intros (ch & u & Hx & Hm & Hc). exists [ch], u; eauto.
    + intros (w & u & Hx & (ch & -> & Hm) & Hc). exists ch, u; auto.
  - (* Quant *)
    specialize (IH Hfree). revert x.
    induction n as [|k IHk]; intros x; simpl.
    + split.
      * intros H. exists [], (rest x). rewrite advance_nil; auto.
      * intros (w & u & Hx & -> & Hc). simpl in Hx.
        rewrite <- Hx, advance_nil in Hc. exact Hc.
    + rewrite IH; split.
      * intros (w1 & u1 & Hx & Hw1 & Hk). apply IHk in Hk.
        destruct Hk as (w2 & u2 & Hu1 & Hw2 & Hc). simpl in Hu1.
        exists (w1 ++ w2), u2. rewrite advance_advance in Hc.
        repeat split; eauto. rewrite Hx, Hu1, app_assoc. reflexivity.
      * intros (w & u & Hx & (w1 & w2 & -> & Hw1 & Hw2) & Hc).
        exists w1, (w2 ++ u). rewrite Hx, app_assoc. repeat split; auto.
        apply IHk. exists w2, u. rewrite advance_advance. auto.
  - (* Seq *)
    apply andb_true_iff in Hfree as [H1 H2].
    rewrite (IH1 H1); split.
    + intros (w1 & u1 & Hx & Hw1 & Hk). apply (IH2 H2) in Hk.
      destruct Hk as (w2 & u2 & Hu1 & Hw2 & Hc). simpl in Hu1.
      exists (w1 ++ w2), u2. rewrite advance_advance in Hc.
      repeat split; eauto. rewrite Hx, Hu1, app_assoc. reflexivity.
    + intros (w & u & Hx & (w1 & w2 & -> & Hw1 & Hw2) & Hc).
      exists w1, (w2 ++ u). rewrite Hx, app_assoc. repeat split; auto.
      apply (IH2 H2). exists w2, u. rewrite advance_advance. auto.
Qed.

(** After index 0 a pattern that starts with [^] finds no match. *)
Lemma exec_from_begin_later ic r s i :
  exec_from unicode_upper ic (Seq AssertBegin r) (S i) s = false.
Proof.
  revert i; induction s as [|ch s IH]; intros i; simpl; auto.
Qed.

(** [test] with a pattern [^body$] decides the language of [body]. *)
Lemma exec_anchored ic body s :
  assertion_free body = true ->
  exec_from unicode_upper ic (Seq AssertBegin (Seq body AssertEnd)) 0 s = true
  <-> lang' ic body s.
Proof.
  intros Hfree.
  assert (Hm : matcher' ic (Seq AssertBegin (Seq body AssertEnd))
                 {| endIndex := 0; rest := s |} (fun _ => true) = true
               <-> lang' ic body s).
  { simpl. rewrite (matcher_lang ic body Hfree); simpl; split.
    - intros (w & u & -> & Hw & Hu). destruct u; [|discriminate].
      rewrite app_nil_r. exact Hw.
    - intros Hw. exists s, []. rewrite app_nil_r. auto. }
  rewrite <- Hm.
  destruct s as [|ch s]; cbn [exec_from];
    destruct (matcher' ic _ _ _); try rewrite exec_from_begin_later;
    split; auto.
Qed.

(** ** Characters *)

Lemma char_matches_exact A ch :
  char_matches unicode_upper false A ch = true <-> In ch A.
Proof.
  unfold char_matches; rewrite existsb_exists; simpl; split.
  - intros (a & Ha & E). apply N.eqb_eq in E. cbv in E. subst; auto.
  - intros H. exists ch; split; auto. apply N.eqb_refl.
Qed.

Lemma Canonicalize_ascii ch :
  (ch < 128)%N -> Canonicalize unicode_upper true ch = ascii_upper ch.
Proof.
  intros H. unfold Canonicalize, toUppercase; simpl.
  apply N.ltb_lt in H as Hb; rewrite Hb.
  replace (128 <=? ch)%N with false; auto.
  symmetry; apply N.leb_gt; auto.
Qed.

Lemma Canonicalize_non_ascii ch :
  (128 <= ch)%N -> (128 <= Canonicalize unicode_upper true ch)%N.
Proof.
  intros H. unfold Canonicalize, toUppercase; simpl.
  replace (ch <? 128)%N with false by (symmetry; apply N.ltb_ge; auto).
  destruct (unicode_upper ch) as [|u [|]]; auto.
  apply N.leb_le in H as Hb; rewrite Hb; simpl.
  destruct (N.ltb_spec u 128); auto.
Qed.

Lemma ascii_upper_bound ch : (ch < 128)%N -> (ascii_upper ch < 128)%N.
Proof.
  unfold ascii_upper; intros H.
  destruct (N.leb_spec 97 ch); destruct (N.leb_spec ch 122); simpl; lia.
Qed.

(** Under the [i] flag, against a set of ASCII characters: the input's
    code unit is ASCII and agrees with a member up to case. *)
Lemma char_matches_fold A ch :
  Forall (fun a => (a < 128)%N) A ->
  (char_matches unicode_upper true A ch = true <->
   (ch < 128)%N /\ exists a, In a A /\ ascii_upper a = ascii_upper ch).
Proof.
  intros HA. rewrite Forall_forall in HA.
  unfold char_matches; rewrite existsb_exists; split.
  - intros (a & Ha & E). apply N.eqb_eq in E.
    rewrite (Canonicalize_ascii a (HA a Ha)) in E.
    destruct (N.lt_ge_cases ch 128) as [Hlt|Hge].
    + rewrite (Canonicalize_ascii ch Hlt) in E. eauto.
    + apply Canonicalize_non_ascii in Hge.
      pose proof (ascii_upper_bound a (HA a Ha)).
      lia.
  - intros (Hlt & a & Ha & E). exists a; split; auto.
    rewrite (Canonicalize_ascii a (HA a Ha)), (Canonicalize_ascii ch Hlt).
    apply N.eqb_eq; exact E.
Qed.

Ltac case_fold :=
  unfold ascii_upper in *;
  repeat match goal with
         | H : context [(?a <=? ?b)%N] |- _ => destruct (N.leb_spec a b)
         | |- context [(?a <=? ?b)%N] => destruct (N.leb_spec a b)
         end;
  simpl in *; try lia.

Ltac upper_of_member E :=
  match type of E with
  | ascii_upper ?a = _ =>
      let v := eval vm_compute in (ascii_upper a) in
      change (ascii_upper a) with v in E
  end.

Ltac enumerate_class :=
  match goal with
  | |- context [CharSet ?atoms] =>
      let l := eval vm_compute in (CharSet atoms) in
      change (CharSet atoms) with l
  end.

(** [[a-fA-F0-9]] *)
Lemma hex_class_exact ch :
  char_matches unicode_upper false
    (CharSet [ClassRange "a" "f"; ClassRange "A" "F"; ClassRange "0" "9"]) ch = true
  <-> hex_digit ch.
Proof.
  rewrite char_matches_exact. enumerate_class.
  unfold hex_digit, in_range; cbv [In cu N_of_ascii]; simpl. lia.
Qed.

(** [[0-9a-f]] under [i] *)
Lemma hex_class_fold ch :
  char_matches unicode_upper true (CharSet [ClassRange "0" "9"; ClassRange "a" "f"]) ch
  = true <-> hex_digit ch.
Proof.
  enumerate_class. rewrite char_matches_fold by (repeat constructor).
  unfold hex_digit, in_range; cbv [cu N_of_ascii]; simpl; split.
  - intros (Hlt & a & Ha & E).
    repeat (destruct Ha as [<-|Ha]; [upper_of_member E; case_fold|]).
    contradiction.
  - intros H. split; [lia|].
    exists (if (65 <=? ch)%N && (ch <=? 70)%N then ch + 32 else ch)%N.
    destruct (N.leb_spec 65 ch); destruct (N.leb_spec ch 70); simpl;
      (split; [lia | case_fold]).
Qed.

(** [[89ab]] under [i] *)
Lemma variant_class_fold ch :
  char_matches unicode_upper true
    (CharSet [ClassChar "8"; ClassChar "9"; ClassChar "a"; ClassChar "b"]) ch = true
  <-> variant_nibble ch.
Proof.
  enumerate_class. rewrite char_matches_fold by (repeat constructor).
  unfold variant_nibble; cbv [js list_ascii_of_string map cu N_of_ascii]; simpl; split.
  - intros (Hlt & a & Ha & E).
    repeat (destruct Ha as [<-|Ha]; [upper_of_member E; case_fold|]).
    contradiction.
  - intros H. split; [lia|].
    exists (if (65 <=? ch)%N && (ch <=? 66)%N then ch + 32 else ch)%N.
    destruct (N.leb_spec 65 ch); destruct (N.leb_spec ch 66); simpl;
      (split; [lia | case_fold]).
Qed.

(** A literal character that is no letter matches itself only, with or
    without the [i] flag. *)
Lemma literal_no_letter ic (a : ascii) ch :
  (cu a < 65)%N ->
  (char_matches unicode_upper ic [cu a] ch = true <-> ch = cu a).
Proof.
  intros Ha. destruct ic.
  - rewrite char_matches_fold by (repeat constructor; lia). split.
    + intros (Hlt & a' & [<-|[]] & E). case_fold.
    + intros ->. split; [lia|]. exists (cu a); simpl; auto.
  - rewrite char_matches_exact; simpl. intuition congruence.
Qed.

Lemma literal_exact (a : ascii) ch :
  char_matches unicode_upper false [cu a] ch = true <-> ch = cu a.
Proof.
  rewrite char_matches_exact; simpl. intuition congruence.
Qed.

(** ** Words *)

Lemma power_class ic atoms n w :
  power (lang' ic (Class atoms)) n w <->
  List.length w = n
  /\ Forall (fun ch => char_matches unicode_upper ic (CharSet atoms) ch = true) w.
Proof.
  revert w; induction n as [|k IH]; intros w; simpl.
  - split.
    + intros ->; auto.
    + intros [H _]. destruct w; [reflexivity | discriminate].
  - split.
    + intros (w1 & w2 & -> & (ch & -> & Hm) & Hk). apply IH in Hk as [Hl Hf].
      simpl. auto.
    + intros [Hl Hf]. destruct w as [|ch w]; [discriminate|].
      inversion Hf; subst. injection Hl as Hl.
      exists [ch], w. repeat split; eauto. apply IH; auto.
Qed.

Lemma Forall_iff_pred {A} (P Q : A -> Prop) l :
  (forall a, P a <-> Q a) -> (Forall P l <-> Forall Q l).
Proof.
  intros H; split; apply Forall_impl; intros a; apply H.
Qed.

Lemma hex_group_exact n w :
  power (lang' false (Class [ClassRange "a" "f"; ClassRange "A" "F";
                             ClassRange "0" "9"])) n w
  <-> hex_group n w.
Proof.
  rewrite power_class. unfold hex_group.
  rewrite (Forall_iff_pred _ hex_digit) by apply hex_class_exact. reflexivity.
Qed.

Lemma hex_group_fold n w :
  lang' true (Quant hex n) w <-> hex_group n w.
Proof.
  change (lang' true (Quant hex n) w)
    with (power (lang' true (Class [ClassRange "0" "9"; ClassRange "a" "f"])) n w).
  rewrite power_class. unfold hex_group.
  rewrite (Forall_iff_pred _ hex_digit) by apply hex_class_fold. reflexivity.
Qed.

(** The language of the address pattern between its assertions. *)
Lemma address_language s :
  lang' false
    (Alternative [Char "0"; Char "x";
                  Quant (Class [ClassRange "a" "f"; ClassRange "A" "F";
                                ClassRange "0" "9"]) 40]) s
  <-> ethereum_address_form s.
Proof.
  unfold ethereum_address_form.
  cbn [Alternative fold_right lang]; split.
  - intros (w1 & r1 & -> & (c0 & -> & H0) & w2 & r2 & -> & (c1 & -> & H1)
            & w & e & -> & Hw & ->).
    apply literal_exact in H0, H1. subst.
    apply hex_group_exact in Hw.
    exists w. rewrite app_nil_r. split; [reflexivity | exact Hw].
  - intros (w & -> & Hw).
    exists [cu "0"], (cu "x" :: w); split; [reflexivity|]. split.
    { exists (cu "0"); split; [|apply literal_exact]; reflexivity. }
    exists [cu "x"], w; split; [reflexivity|]. split.
    { exists (cu "x"); split; [|apply literal_exact]; reflexivity. }
    exists w, []. rewrite app_nil_r. split; [reflexivity|]. split; auto.
    apply hex_group_exact; auto.
Qed.

Lemma lang_Seq ic r1 r2 w :
  lang' ic (Seq r1 r2) w <->
  exists w1 w2, w = w1 ++ w2 /\ lang' ic r1 w1 /\ lang' ic r2 w2.
Proof. reflexivity. Qed.

Ltac split_seq H w Hw :=
  apply lang_Seq in H; destruct H as (w & ? & -> & Hw & H).

Lemma hex_group_cons n ch w :
  hex_digit ch -> hex_group n w -> hex_group (S n) (ch :: w).
Proof.
  intros Hc [Hl Hf]; split; simpl; auto.
Qed.

Lemma hex_group_tail n ch w : hex_group (S n) (ch :: w) -> hex_group n w.
Proof.
  intros [Hl Hf]; inversion Hf; split; auto.
Qed.

Lemma four_hex : hex_digit (cu "4").
Proof. left; unfold in_range; cbv [cu N_of_ascii]; simpl; lia. Qed.

Lemma variant_hex v : variant_nibble v -> hex_digit v.
Proof.
  unfold variant_nibble, hex_digit, in_range.
  cbv [js list_ascii_of_string map cu N_of_ascii In]; simpl. lia.
Qed.

Ltac join_seq w :=
  apply lang_Seq; exists w; eexists; split; [reflexivity | split].

Lemma literal_word ic (a : ascii) w :
  (cu a < 65)%N -> (lang' ic (Char a) w <-> w = [cu a]).
Proof.
  intros Ha; simpl; split.
  - intros (ch & -> & H). apply (literal_no_letter ic a ch Ha) in H. now subst.
  - intros ->. exists (cu a); split; auto. now apply literal_no_letter.
Qed.

(** The language of the room-id pattern between its assertions. *)
Lemma room_id_language s :
  lang' true
    (Alternative
       [Quant hex 8; Char "-"; Quant hex 4; Char "-";
        Char "4"; Quant hex 3; Char "-";
        Class [ClassChar "8"; ClassChar "9"; ClassChar "a"; ClassChar "b"];
        Quant hex 3; Char "-"; Quant hex 12]) s
  <-> uuid_v4_form s.
Proof.
  unfold uuid_v4_form, Alternative, fold_right; split.
  - intros H.
    split_seq H g1 Hg1. split_seq H d1 Hd1. split_seq H g2 Hg2.
    split_seq H d2 Hd2. split_seq H f Hf. split_seq H g3 Hg3.
    split_seq H d3 Hd3. split_seq H vv Hv. split_seq H g4 Hg4.
    split_seq H d4 Hd4. split_seq H g5 Hg5. simpl in H; subst.
    apply hex_group_fold in Hg1, Hg2, Hg3, Hg4, Hg5.
    apply literal_word in Hd1, Hd2, Hd3, Hd4, Hf; try reflexivity. subst.
    destruct Hv as (v & -> & Hv). apply variant_class_fold in Hv.
    exists g1, g2, (cu "4" :: g3), (v :: g4), g5. rewrite app_nil_r.
    split; [reflexivity|].
    do 5 (split; [solve [auto using hex_group_cons, four_hex, variant_hex]|]).
    split; [reflexivity|]. exists v; auto.
  - intros (g1 & g2 & g3 & g4 & g5 & -> & H1 & H2 & H3 & H4 & H5 & E3 & v & E4 & Hv).
    destruct g3 as [|f g3]; [discriminate|]. injection E3 as ->.
    destruct g4 as [|v' g4]; [discriminate|]. injection E4 as ->.
    apply hex_group_tail in H3, H4.
    rewrite <- (app_nil_r g5).
    join_seq g1; [now apply hex_group_fold|].
    join_seq (js "-"); [now apply literal_word|].
    join_seq g2; [now apply hex_group_fold|].
    join_seq (js "-"); [now apply literal_word|].
    join_seq (js "4"); [now apply literal_word|].
    join_seq g3; [now apply hex_group_fold|].
    join_seq (js "-"); [now apply literal_word|].
    join_seq [v]; [exists v; split; auto; now apply variant_class_fold|].
    join_seq g4; [now apply hex_group_fold|].
    join_seq (js "-"); [now apply literal_word|].
    join_seq g5; [now apply hex_group_fold|].
    reflexivity.
Qed.

End MatcherCorrect.

(* ================================================================== *)
(** * The four predicates *)
(* ================================================================== *)

Lemma typeof_string v :
  (typeof v =? "string")%string = true <-> exists s, v = VString s.
Proof.
  split.
  - destruct v as [| | | | | s | |? [] ?]; try discriminate. eauto.
  - intros (s & ->); reflexivity.
Qed.

Lemma typeof_number v :
  (typeof v =? "number")%string = true <-> exists x, v = VNumber x.
Proof.
  split.
  - destruct v as [| | |x | | | |? [] ?]; try discriminate. eauto.
  - intros (x & ->); reflexivity.
Qed.

(** Past the first guard of a payload validator the payload is an object
    that is not callable: the property reads that follow are reads of its
    data properties. *)
Lemma guard_object payload :
  negb (ToBoolean payload) || negb (typeof payload =? "object")%string = false
  <-> exists ref props, payload = VObject ref false props.
Proof.
  split.
  - destruct payload as [| |[]|x|z|s| |ref [] props]; simpl;
      try discriminate; eauto.
    + destruct (negb (_ || _)); discriminate.
    + destruct (negb (z =? 0)%Z); discriminate.
    + destruct s; discriminate.
  - intros (ref & props & ->); reflexivity.
Qed.

Lemma js_string_eqb_eq s t : js_string_eqb s t = true <-> s = t.
Proof.
  revert t; induction s as [|a s IH]; intros [|b t]; simpl;
    try (split; [discriminate | congruence]); [tauto|].
  rewrite andb_true_iff, N.eqb_eq, IH. split.
  - intros [-> ->]; reflexivity.
  - intros H; injection H; auto.
Qed.

Section Predicates.

Variable unicode_upper : code_unit -> js_string.

Lemma address_test s :
  RegExp_test unicode_upper address_re (VString s) = true
  <-> ethereum_address_form s.
Proof.
  unfold RegExp_test, address_re; cbn [pattern ignoreCase_flag].
  rewrite exec_anchored by reflexivity. apply address_language.
Qed.

Lemma room_id_test s :
  RegExp_test unicode_upper room_id_re (VString s) = true <-> uuid_v4_form s.
Proof.
  unfold RegExp_test, room_id_re; cbn [pattern ignoreCase_flag].
  rewrite exec_anchored by reflexivity. apply room_id_language.
Qed.

Lemma isValidEthereumAddress_iff v :
  isValidEthereumAddress unicode_upper v = true
  <-> exists s, v = VString s /\ ethereum_address_form s.
Proof.
  unfold isValidEthereumAddress. rewrite andb_true_iff, typeof_string. split.
  - intros [(s & ->) H]. apply address_test in H. eauto.
  - intros (s & -> & H). split; eauto. now apply address_test.
Qed.

Lemma isValidRoomId_iff v :
  isValidRoomId unicode_upper v = true
  <-> exists s, v = VString s /\ uuid_v4_form s.
Proof.
  unfold isValidRoomId. rewrite andb_true_iff, typeof_string. split.
  - intros [(s & ->) H]. apply room_id_test in H. eauto.
  - intros (s & -> & H). split; eauto. now apply room_id_test.
Qed.

(** C3.  [isValidEthereumAddress] returns [true] exactly when its argument
    has type string and is ['0x'] followed by 40 hexadecimal characters of
    either case (the strings the pattern [^0x[a-fA-F0-9]{40}$] matches);
    on every value that is not a string and on every string of another form
    it returns [false].  It is a function from values to booleans, so it
    has a result on every input and touches no state.  The samples of the
    specification: ['0x' + 'a'.repeat(40)] is accepted, ['0xabc'] and the
    number [123] are not. *)
Theorem isValidEthereumAddress_spec :
  (forall v : value,
     isValidEthereumAddress unicode_upper v = true
     <-> typeof v = "string"%string
         /\ exists s, v = VString s /\ ethereum_address_form s)
  /\ (forall v, typeof v <> "string"%string ->
                isValidEthereumAddress unicode_upper v = false)
  /\ (forall s, ~ ethereum_address_form s ->
                isValidEthereumAddress unicode_upper (VString s) = false)
  /\ isValidEthereumAddress unicode_upper Sample.address = true
  /\ isValidEthereumAddress unicode_upper (VString (js "0xabc")) = false
  /\ isValidEthereumAddress unicode_upper (VNumber 123) = false.
Proof.
  split; [|split; [|split; [|split; [|split]]]]; try reflexivity.
  - intros v. rewrite isValidEthereumAddress_iff. split.
    + intros (s & -> & H). split; [reflexivity | eauto].
    + intros [_ H]; exact H.
  - intros v Hv. apply not_true_is_false. intros H.
    apply isValidEthereumAddress_iff in H as (s & -> & _). now apply Hv.
  - intros s Hs. apply not_true_is_false. intros H.
    apply isValidEthereumAddress_iff in H as (s' & E & H). injection E as ->.
    now apply Hs.
Qed.

(** C4.  [isValidRoomId] returns [true] exactly when its argument is a
    string in the textual form of a version 4 UUID: five groups of 8, 4, 4,
    4 and 12 hexadecimal characters of either case, joined by hyphens, the
    third group starting with [4] and the fourth with one of [8], [9], [a],
    [b] (or [A], [B]).  On a value that is not a string it returns [false].
    The sample ["123e4567-e89b-42d3-a456-426614174000"] is accepted, and
    the same string with version nibble [1] is rejected. *)
Theorem isValidRoomId_spec :
  (forall v : value,
     isValidRoomId unicode_upper v = true
     <-> typeof v = "string"%string
         /\ exists s, v = VString s /\ uuid_v4_form s)
  /\ (forall v, typeof v <> "string"%string ->
                isValidRoomId unicode_upper v = false)
  /\ isValidRoomId unicode_upper Sample.room = true
  /\ isValidRoomId unicode_upper Sample.room_v1 = false.
Proof.
  split; [|split; [|split]]; try reflexivity.
  - intros v. rewrite isValidRoomId_iff. split.
    + intros (s & -> & H). split; [reflexivity | eauto].
    + intros [_ H]; exact H.
  - intros v Hv. apply not_true_is_false. intros H.
    apply isValidRoomId_iff in H as (s & -> & _). now apply Hv.
Qed.

End Predicates.

(** ** Directions *)

Lemma isValidDirection_iff v :
  isValidDirection v = true
  <-> exists s, v = VString s
                /\ In s [js "UP"; js "DOWN"; js "LEFT"; js "RIGHT"].
Proof.
  unfold isValidDirection. rewrite andb_true_iff, typeof_string. split.
  - intros [(s & ->) H]. exists s; split; auto.
    unfold includes in H; cbn [existsb SameValueZero] in H.
    rewrite !orb_true_iff, !js_string_eqb_eq in H. simpl. intuition congruence.
  - intros (s & -> & H). split; eauto.
    unfold includes; cbn [existsb SameValueZero].
    rewrite !orb_true_iff, !js_string_eqb_eq. simpl in H. intuition congruence.
Qed.

(** C6.  [isValidDirection] returns [true] exactly when its argument is a
    string and is one of ["UP"], ["DOWN"], ["LEFT"], ["RIGHT"], compared
    code unit by code unit, so with the case as written: ["UP"] is
    accepted, ["up"] and the empty string are not. *)
Theorem isValidDirection_spec :
  (forall v : value,
     isValidDirection v = true
     <-> typeof v = "string"%string
         /\ exists s, v = VString s
                      /\ In s [js "UP"; js "DOWN"; js "LEFT"; js "RIGHT"])
  /\ isValidDirection (VString (js "UP")) = true
  /\ isValidDirection (VString (js "up")) = false
  /\ isValidDirection (VString (js "")) = false.
Proof.
  split; [|split; [|split]]; try reflexivity.
  intros v. rewrite isValidDirection_iff. split.
  - intros (s & -> & H). split; [reflexivity | eauto].
  - intros [_ H]; exact H.
Qed.

(** ** Bet amounts *)

(** Against a number that is not NaN, [SameValueZero] is the equality of
    floats. *)
Lemma SameValueZero_number x a :
  PrimFloat.is_nan a = false ->
  SameValueZero (VNumber x) (VNumber a) = PrimFloat.eqb x a.
Proof.
  intros Ha; simpl. rewrite Ha, andb_false_r. reflexivity.
Qed.

Lemma isValidBetAmount_iff v :
  isValidBetAmount v = true
  <-> exists x, v = VNumber x
                /\ exists a, In a [0; 0.01; 0.1; 1; 2]%float
                             /\ PrimFloat.eqb x a = true.
Proof.
  unfold isValidBetAmount. rewrite andb_true_iff, typeof_number. split.
  - intros [(x & ->) H]. exists x; split; auto.
    unfold includes, validAmounts in H; cbn [existsb] in H.
    rewrite !SameValueZero_number in H by reflexivity.
    rewrite !orb_true_iff in H.
    destruct H as [H|[H|[H|[H|[H|H]]]]]; [| | | | |discriminate];
      eexists; (split; [|exact H]); simpl; auto 6.
  - intros (x & -> & a & Ha & E). split; eauto.
    unfold includes, validAmounts; cbn [existsb].
    rewrite !SameValueZero_number by reflexivity.
    rewrite !orb_true_iff. simpl in Ha.
    destruct Ha as [<-|[<-|[<-|[<-|[<-|[]]]]]]; auto 7.
Qed.

(** C5.  [isValidBetAmount] returns [true] exactly when its argument has
    type number and equals, as a binary64 float and with no tolerance, one
    of the literals 0, 0.01, 0.1, 1, 2.  So 0.1 is accepted, 0.15 is not,
    and the string ["1"] is not. *)
Theorem isValidBetAmount_spec :
  (forall v : value,
     isValidBetAmount v = true
     <-> typeof v = "number"%string
         /\ exists x, v = VNumber x
                      /\ exists a, In a [0; 0.01; 0.1; 1; 2]%float
                                   /\ PrimFloat.eqb x a = true)
  /\ isValidBetAmount (VNumber 0.1) = true
  /\ isValidBetAmount (VNumber 0.15) = false
  /\ isValidBetAmount (VString (js "1")) = false.
Proof.
  split; [|split; [|split]]; try reflexivity.
  intros v. rewrite isValidBetAmount_iff. split.
  - intros (x & -> & H). split; [reflexivity | eauto].
  - intros [_ H]; exact H.
Qed.

(** Equality of floats against a finite, non-zero float is identity. *)
Lemma eqb_finite_eq x a s m e :
  Prim2SF a = S754_finite s m e -> PrimFloat.eqb x a = true -> x = a.
Proof.
  intros Ha H. rewrite eqb_spec, Ha in H. apply Prim2SF_inj. rewrite Ha.
  unfold SFeqb, SFcompare in H.
  destruct (Prim2SF x) as [s'|s'| |s' m' e']; try discriminate;
    try (destruct s, s'; discriminate).
  assert (e' = e /\ m' = m) as [-> ->].
  { destruct s', s; try discriminate;
      destruct (Z.compare_spec e' e); try discriminate;
      (split; [assumption|]); apply Pos.compare_eq; unfold Pos.compare;
      destruct (Pos.compare_cont Eq m' m); simpl in H; congruence. }
  destruct s', s; try discriminate; reflexivity.
Qed.

(** Equality of floats against zero holds for the two zeros. *)
Lemma eqb_zero_eq x :
  PrimFloat.eqb x 0 = true <-> x = 0%float \/ x = (-0)%float.
Proof.
  split.
  - intros H. rewrite eqb_spec in H.
    change (Prim2SF 0) with (S754_zero false) in H.
    unfold SFeqb, SFcompare in H.
    destruct (Prim2SF x) as [[]| | |[] ? ?] eqn:E; try discriminate.
    + right. apply Prim2SF_inj. rewrite E. reflexivity.
    + left. apply Prim2SF_inj. rewrite E. reflexivity.
    + destruct s; discriminate.
  - intros [-> | ->]; reflexivity.
Qed.

(** C10.  [isValidBetAmount] rejects NaN, although its type is number, and
    accepts negative zero, a float of its own that the membership test
    identifies with 0: the numbers it accepts are exactly [0], [-0],
    [0.01], [0.1], [1] and [2]. *)
Theorem isValidBetAmount_accepted_numbers :
  typeof (VNumber nan) = "number"%string
  /\ isValidBetAmount (VNumber nan) = false
  /\ isValidBetAmount (VNumber (-0)) = true
  /\ (-0)%float <> 0%float
  /\ forall x : float,
       isValidBetAmount (VNumber x) = true
       <-> In x [0; -0; 0.01; 0.1; 1; 2]%float.
Proof.
  split; [|split; [|split; [|split]]]; try reflexivity.
  { intros H. apply (f_equal Prim2SF) in H. vm_compute in H. discriminate. }
  intros x. rewrite isValidBetAmount_iff. split.
  - intros (x' & E & a & Ha & H). injection E as <-. simpl in Ha.
    destruct Ha as [<-|[<-|[<-|[<-|[<-|[]]]]]].
    + apply eqb_zero_eq in H as [-> | ->]; simpl; auto.
    + eapply eqb_finite_eq in H; [subst; simpl; auto 7 | reflexivity].
    + eapply eqb_finite_eq in H; [subst; simpl; auto 7 | reflexivity].
    + eapply eqb_finite_eq in H; [subst; simpl; auto 7 | reflexivity].
    + eapply eqb_finite_eq in H; [subst; simpl; auto 7 | reflexivity].
  - intros H. exists x; split; auto. simpl in H.
    destruct H as [<-|[<-|[<-|[<-|[<-|[<-|[]]]]]]].
    + exists 0%float; simpl; auto.
    + exists 0%float; simpl; auto.
    + exists 0.01%float; simpl; auto.
    + exists 0.1%float; simpl; auto 6.
    + exists 1%float; simpl; auto 6.
    + exists 2%float; simpl; auto 7.
Qed.

(* ================================================================== *)
(** * The two payload validators *)
(* ================================================================== *)

Lemma guard_pass payload :
  object_payload payload ->
  negb (ToBoolean payload) || negb (typeof payload =? "object")%string = false.
Proof.
  intros [Ht Ho]. rewrite Ht, Ho. reflexivity.
Qed.

Lemma guard_fail payload :
  ToBoolean payload = false \/ typeof payload <> "object"%string ->
  negb (ToBoolean payload) || negb (typeof payload =? "object")%string = true.
Proof.
  intros [Ht | Ho].
  - rewrite Ht; reflexivity.
  - apply String.eqb_neq in Ho. rewrite Ho. apply orb_true_r.
Qed.

Lemma is_undefined_iff v : is_undefined v = true <-> v = VUndefined.
Proof.
  destruct v; simpl; split; congruence.
Qed.

Lemma is_undefined_false v : v <> VUndefined -> is_undefined v = false.
Proof.
  intros H. apply not_true_is_false. now rewrite is_undefined_iff.
Qed.

Section Payloads.

Variable unicode_upper : code_unit -> js_string.

(** A valid address and a valid room id are truthy: they are strings that
    are not empty. *)
Lemma valid_address_truthy v :
  isValidEthereumAddress unicode_upper v = true -> ToBoolean v = true.
Proof.
  intros H. apply isValidEthereumAddress_iff in H as (s & -> & w & -> & _).
  reflexivity.
Qed.

Lemma valid_room_truthy v :
  isValidRoomId unicode_upper v = true -> ToBoolean v = true.
Proof.
  intros H.
  apply isValidRoomId_iff in H as (s & -> & g1 & g2 & g3 & g4 & g5 & -> & [Hl _] & _).
  destruct g1; [discriminate | reflexivity].
Qed.

Ltac by_guard :=
  unfold validateJoinRoomPayload, validateDirectionPayload;
  match goal with
  | H : object_payload _ |- _ => rewrite (guard_pass _ H)
  | H : _ \/ _ |- _ => rewrite (guard_fail _ H)
  end.

Ltac by_tests :=
  repeat match goal with
         | H : ?b = _ |- context [?b] => rewrite H
         | H : ?v <> VUndefined |- context [is_undefined ?v] =>
             rewrite (is_undefined_false v H)
         end;
  rewrite ?andb_false_r; simpl.

(** C1.  [validateJoinRoomPayload] runs its checks in order and stops at
    the first that fails: a payload that is falsy or not of type object
    fails with 'Invalid payload format'; else a falsy [eoa] fails with
    'Ethereum address is required'; else an [eoa] that is no valid address
    fails with 'Invalid Ethereum address format'; else a [betAmount] that
    is not [undefined] and is no valid amount fails with 'Invalid bet
    amount. Must be 0, 0.01, 0.1, 1, or 2'; else an [undefined] [roomId]
    succeeds with [{success: true, isCreating: true}], after a log line
    with the bet amount ([betAmount || 0]); else a [roomId] that is no
    valid room id fails with 'Invalid room ID format'; else the call
    succeeds with [{success: true, isJoining: true}], after a log line with
    the room id and the bet amount.  The failures leave the console alone.
    In particular a payload with an invalid [eoa] and a valid [roomId]
    fails on the address. *)
Theorem validateJoinRoomPayload_order :
  forall (payload : value) (console : Console),
    let eoa := Get payload "eoa" in
    let betAmount := Get payload "betAmount" in
    let roomId := Get payload "roomId" in
    let result := validateJoinRoomPayload unicode_upper payload console in
    (ToBoolean payload = false \/ typeof payload <> "object"%string ->
     result = (failure "Invalid payload format", console))
    /\ (object_payload payload ->
        ToBoolean eoa = false ->
        result = (failure "Ethereum address is required", console))
    /\ (object_payload payload ->
        ToBoolean eoa = true ->
        isValidEthereumAddress unicode_upper eoa = false ->
        result = (failure "Invalid Ethereum address format", console))
    /\ (object_payload payload ->
        ToBoolean eoa = true ->
        isValidEthereumAddress unicode_upper eoa = true ->
        betAmount <> VUndefined ->
        isValidBetAmount betAmount = false ->
        result = (failure "Invalid bet amount. Must be 0, 0.01, 0.1, 1, or 2",
                  console))
    /\ (object_payload payload ->
        ToBoolean eoa = true ->
        isValidEthereumAddress unicode_upper eoa = true ->
        betAmount = VUndefined \/ isValidBetAmount betAmount = true ->
        roomId = VUndefined ->
        result =
          ({| success := true; error := None;
              isCreating := Some true; isJoining := None |},
           console ++ [[VString (js "Creating new room with bet amount:");
                        logical_or betAmount (VNumber 0)]]))
    /\ (object_payload payload ->
        ToBoolean eoa = true ->
        isValidEthereumAddress unicode_upper eoa = true ->
        betAmount = VUndefined \/ isValidBetAmount betAmount = true ->
        roomId <> VUndefined ->
        isValidRoomId unicode_upper roomId = false ->
        result = (failure "Invalid room ID format", console))
    /\ (object_payload payload ->
        ToBoolean eoa = true ->
        isValidEthereumAddress unicode_upper eoa = true ->
        betAmount = VUndefined \/ isValidBetAmount betAmount = true ->
        roomId <> VUndefined ->
        isValidRoomId unicode_upper roomId = true ->
        result =
          ({| success := true; error := None;
              isCreating := None; isJoining := Some true |},
           console ++ [[VString (js "Joining existing room:"); roomId;
                        VString (js "with bet amount:");
                        logical_or betAmount (VNumber 0)]]))
    /\ validateJoinRoomPayload unicode_upper
         (Sample.object [("eoa", VString (js "bad")); ("roomId", Sample.room)]%string)
         console
       = (failure "Invalid Ethereum address format", console).
Proof.
  intros payload console eoa betAmount roomId result.
  subst eoa betAmount roomId result.
  repeat split; try reflexivity.
  - intros H. by_guard. reflexivity.
  - intros Hp He. by_guard. by_tests. reflexivity.
  - intros Hp He Ha. by_guard. by_tests. reflexivity.
  - intros Hp He Ha Hb Hv. by_guard. by_tests. reflexivity.
  - intros Hp He Ha [Hb|Hb] Hr; by_guard; by_tests; reflexivity.
  - intros Hp He Ha [Hb|Hb] Hr Hv; by_guard; by_tests; reflexivity.
  - intros Hp He Ha [Hb|Hb] Hr Hv; by_guard; by_tests; reflexivity.
Qed.

(** C2.  [validateDirectionPayload] runs its checks in order and stops at
    the first that fails: a payload that is falsy or not of type object
    fails with 'Invalid payload format'; else a falsy [roomId] fails with
    'Room ID is required'; else a [roomId] that is no valid room id fails
    with 'Invalid room ID format'; else a falsy [direction] fails with
    'Direction is required'; else a [direction] that is no valid direction
    fails with 'Invalid direction format (must be UP, DOWN, LEFT, or
    RIGHT)'; otherwise the result is [{success: true}] and nothing else.
    The console is never written.  In particular a valid [roomId] with the
    direction "SIDEWAYS" fails on the direction's format. *)
Theorem validateDirectionPayload_order :
  forall (payload : value) (console : Console),
    let roomId := Get payload "roomId" in
    let direction := Get payload "direction" in
    let result := validateDirectionPayload unicode_upper payload console in
    (ToBoolean payload = false \/ typeof payload <> "object"%string ->
     result = (failure "Invalid payload format", console))
    /\ (object_payload payload ->
        ToBoolean roomId = false ->
        result = (failure "Room ID is required", console))
    /\ (object_payload payload ->
        ToBoolean roomId = true ->
        isValidRoomId unicode_upper roomId = false ->
        result = (failure "Invalid room ID format", console))
    /\ (object_payload payload ->
        ToBoolean roomId = true ->
        isValidRoomId unicode_upper roomId = true ->
        ToBoolean direction = false ->
        result = (failure "Direction is required", console))
    /\ (object_payload payload ->
        ToBoolean roomId = true ->
        isValidRoomId unicode_upper roomId = true ->
        ToBoolean direction = true ->
        isValidDirection direction = false ->
        result =
          (failure "Invalid direction format (must be UP, DOWN, LEFT, or RIGHT)",
           console))
    /\ (object_payload payload ->
        ToBoolean roomId = true ->
        isValidRoomId unicode_upper roomId = true ->
        ToBoolean direction = true ->
        isValidDirection direction = true ->
        result =
          ({| success := true; error := None;
              isCreating := None; isJoining := None |}, console))
    /\ validateDirectionPayload unicode_upper
         (Sample.object [("roomId", Sample.room);
                         ("direction", VString (js "SIDEWAYS"))]%string)
         console
       = (failure "Invalid direction format (must be UP, DOWN, LEFT, or RIGHT)",
          console).
Proof.
  intros payload console roomId direction result.
  subst roomId direction result.
  repeat split; try reflexivity.
  - intros H. by_guard. reflexivity.
  - intros Hp Hr. by_guard. by_tests. reflexivity.
  - intros Hp Hr Hv. by_guard. by_tests. reflexivity.
  - intros Hp Hr Hv Hd. by_guard. by_tests. reflexivity.
  - intros Hp Hr Hv Hd Hw. by_guard. by_tests. reflexivity.
  - intros Hp Hr Hv Hd Hw. by_guard. by_tests. reflexivity.
Qed.

(** Every case of the two contracts occurs: one payload for each. *)
Lemma validateJoinRoomPayload_samples :
  let run payload := fst (validateJoinRoomPayload unicode_upper payload []) in
  map run
    [VUndefined;
     Sample.object [];
     Sample.object [("eoa", VString (js "bad"))];
     Sample.object [("eoa", Sample.address); ("betAmount", VNumber 0.15)];
     Sample.object [("eoa", Sample.address)];
     Sample.object [("eoa", Sample.address); ("roomId", Sample.room_v1)];
     Sample.object [("eoa", Sample.address); ("roomId", Sample.room)]]%string
  = [failure "Invalid payload format";
     failure "Ethereum address is required";
     failure "Invalid Ethereum address format";
     failure "Invalid bet amount. Must be 0, 0.01, 0.1, 1, or 2";
     {| success := true; error := None;
        isCreating := Some true; isJoining := None |};
     failure "Invalid room ID format";
     {| success := true; error := None;
        isCreating := None; isJoining := Some true |}].
Proof. reflexivity. Qed.

Lemma validateDirectionPayload_samples :
  let run payload := fst (validateDirectionPayload unicode_upper payload []) in
  map run
    [VNull;
     Sample.object [("direction", VString (js "UP"))];
     Sample.object [("roomId", Sample.room_v1)];
     Sample.object [("roomId", Sample.room)];
     Sample.object [("roomId", Sample.room); ("direction", VString (js "up"))];
     Sample.object [("roomId", Sample.room); ("direction", VString (js "UP"))]]%string
  = [failure "Invalid payload format";
     failure "Room ID is required";
     failure "Invalid room ID format";
     failure "Direction is required";
     failure "Invalid direction format (must be UP, DOWN, LEFT, or RIGHT)";
     {| success := true; error := None; isCreating := None; isJoining := None |}].
Proof. reflexivity. Qed.

(** The outcomes of the two validators, with what they do to the console:
    what they write depends on the payload alone. *)
Lemma validateJoinRoomPayload_cases payload console :
  (exists e, In e join_errors
             /\ validateJoinRoomPayload unicode_upper payload console
                = (failure e, console))
  \/ (Get payload "roomId" = VUndefined
      /\ validateJoinRoomPayload unicode_upper payload console
         = ({| success := true; error := None;
               isCreating := Some true; isJoining := None |},
            console ++ [[VString (js "Creating new room with bet amount:");
                         logical_or (Get payload "betAmount") (VNumber 0)]]))
  \/ (Get payload "roomId" <> VUndefined
      /\ validateJoinRoomPayload unicode_upper payload console
         = ({| success := true; error := None;
               isCreating := None; isJoining := Some true |},
            console ++ [[VString (js "Joining existing room:");
                         Get payload "roomId";
                         VString (js "with bet amount:");
                         logical_or (Get payload "betAmount") (VNumber 0)]])).
Proof.
  unfold validateJoinRoomPayload, join_errors.
  repeat match goal with
         | |- context [if ?b then _ else _] => destruct b eqn:?
         end;
    try (left; eexists; split; [|reflexivity]; simpl; tauto).
  - right; left. split; [now apply is_undefined_iff | reflexivity].
  - right; right. split; [|reflexivity].
    intros E. apply is_undefined_iff in E. congruence.
Qed.

Lemma validateDirectionPayload_cases payload console :
  (exists e, In e direction_errors
             /\ validateDirectionPayload unicode_upper payload console
                = (failure e, console))
  \/ validateDirectionPayload unicode_upper payload console
     = ({| success := true; error := None;
           isCreating := None; isJoining := None |}, console).
Proof.
  unfold validateDirectionPayload, direction_errors.
  repeat match goal with
         | |- context [if ?b then _ else _] => destruct b eqn:?
         end;
    try (left; eexists; split; [|reflexivity]; simpl; tauto).
  right; reflexivity.
Qed.

(** C7.  The result of the two payload validators has the shape
    [{success, error?, isCreating?, isJoining?}]: the [error] field is there
    exactly when [success] is [false], and then it is one of the messages
    of the contract; [isCreating] and [isJoining] are never both there and
    never there on a failure; a success of [validateJoinRoomPayload] has
    exactly one of them, [isCreating: true] when [roomId] is [undefined]
    and [isJoining: true] otherwise; [validateDirectionPayload] sets
    neither. *)
Theorem validation_result_shape :
  forall (payload : value) (console : Console),
    let j := fst (validateJoinRoomPayload unicode_upper payload console) in
    let d := fst (validateDirectionPayload unicode_upper payload console) in
    ((exists e, error j = Some e) <-> success j = false)
    /\ ((exists e, error d = Some e) <-> success d = false)
    /\ (forall e, error j = Some e -> In e join_errors)
    /\ (forall e, error d = Some e -> In e direction_errors)
    /\ ~ (isCreating j <> None /\ isJoining j <> None)
    /\ (success j = false -> isCreating j = None /\ isJoining j = None)
    /\ (success j = true ->
        (Get payload "roomId" = VUndefined
         /\ isCreating j = Some true /\ isJoining j = None)
        \/ (Get payload "roomId" <> VUndefined
            /\ isCreating j = None /\ isJoining j = Some true))
    /\ isCreating d = None /\ isJoining d = None.
Proof.
  intros payload console j d; subst j d.
  destruct (validateJoinRoomPayload_cases payload console)
    as [(e & He & ->) | [[Hr ->] | [Hr ->]]];
    destruct (validateDirectionPayload_cases payload console)
      as [(e' & He' & ->) | ->];
    simpl;
    repeat match goal with
           | |- _ /\ _ => split
           | |- _ <-> _ => split
           end;
    try tauto; try discriminate; eauto;
    try (intros (? & ?); discriminate);
    try (intros ? E; injection E as <-; assumption);
    try (intros ? E; discriminate E);
    try (intros [? _]; congruence).
Qed.

(** A validator's result, and the lines it adds to the console, are those
    of a run from the empty console. *)
Lemma validateJoinRoomPayload_console payload console :
  validateJoinRoomPayload unicode_upper payload console
  = (fst (validateJoinRoomPayload unicode_upper payload []),
     console ++ snd (validateJoinRoomPayload unicode_upper payload [])).
Proof.
  unfold validateJoinRoomPayload, console_log.
  repeat match goal with
         | |- context [if ?b then _ else _] => destruct b
         end; simpl; rewrite ?app_nil_r; reflexivity.
Qed.

Lemma validateDirectionPayload_console payload console :
  validateDirectionPayload unicode_upper payload console
  = (fst (validateDirectionPayload unicode_upper payload []), console).
Proof.
  unfold validateDirectionPayload.
  repeat match goal with
         | |- context [if ?b then _ else _] => destruct b
         end; reflexivity.
Qed.

(** C9 (as amended).  Only a [roomId] that is [undefined] asks for a new
    room.  On an object payload with a valid [eoa] and a [betAmount] that
    is [undefined] or valid, a [roomId] that is there but falsy ([null],
    the empty string, [0], [false], ...) takes the join branch and fails
    with 'Invalid room ID format'; nothing is logged. *)
Theorem falsy_roomId_takes_join_branch :
  forall (payload : value) (console : Console),
    object_payload payload ->
    isValidEthereumAddress unicode_upper (Get payload "eoa") = true ->
    Get payload "betAmount" = VUndefined
      \/ isValidBetAmount (Get payload "betAmount") = true ->
    Get payload "roomId" <> VUndefined ->
    ToBoolean (Get payload "roomId") = false ->
    validateJoinRoomPayload unicode_upper payload console
    = (failure "Invalid room ID format", console).
Proof.
  intros payload console Hp Ha Hb Hr Hf.
  assert (Hv : isValidRoomId unicode_upper (Get payload "roomId") = false).
  { apply not_true_is_false. intros H. apply valid_room_truthy in H. congruence. }
  pose proof (valid_address_truthy _ Ha) as He.
  destruct Hb as [Hb|Hb]; by_guard; by_tests; reflexivity.
Qed.

End Payloads.

(** The amended C9 at [{eoa: address, roomId: null}]. *)
Lemma falsy_roomId_takes_join_branch_witness :
  validateJoinRoomPayload Sample.plain_table Sample.null_room []
  = (failure "Invalid room ID format", []).
Proof.
  apply (falsy_roomId_takes_join_branch Sample.plain_table Sample.null_room []).
  - split; reflexivity.
  - reflexivity.
  - left; reflexivity.
  - discriminate.
  - reflexivity.
Defined.

(** C9 as first stated, without a condition on the bet amount, fails at
    [{eoa: address, betAmount: 5, roomId: null}]: the address is valid and
    the room id is there and falsy, but the call fails on the bet amount,
    which is checked before the room id. *)
Lemma falsy_roomId_with_invalid_bet :
  object_payload Sample.null_room_bet_5
  /\ isValidEthereumAddress Sample.plain_table
       (Get Sample.null_room_bet_5 "eoa") = true
  /\ Get Sample.null_room_bet_5 "roomId" = VNull
  /\ fst (validateJoinRoomPayload Sample.plain_table Sample.null_room_bet_5 [])
     = failure "Invalid bet amount. Must be 0, 0.01, 0.1, 1, or 2"
  /\ fst (validateJoinRoomPayload Sample.plain_table Sample.null_room_bet_5 [])
     <> failure "Invalid room ID format".
Proof.
  repeat split; try reflexivity. discriminate.
Qed.

(* ================================================================== *)
(** * Calls on the state of the run time *)
(* ================================================================== *)

Section RunCorrect.

Variable unicode_upper : code_unit -> js_string.

Lemma matcher_ext ic r :
  forall x c c', (forall y, c y = c' y) ->
                 matcher unicode_upper ic r x c = matcher unicode_upper ic r x c'.
Proof.
  induction r as [|a|atoms|r IH n|r1 IH1 r2 IH2| |]; simpl; intros x c c' E;
    auto.
  - unfold CharacterSetMatcher. destruct (rest x); auto.
    destruct (char_matches _ _ _ _); auto.
  - unfold CharacterSetMatcher. destruct (rest x); auto.
    destruct (char_matches _ _ _ _); auto.
  - revert x. induction n as [|k IHk]; intros x; auto.
  - destruct (Nat.eqb _ _); auto.
  - destruct (rest x); auto.
Qed.

(** The two matchers find a match in the same cases. *)
Lemma matcher_state_match ic r :
  forall x c,
    Run.is_match (Run.matcher_state unicode_upper ic r x c)
    = matcher unicode_upper ic r x (fun y => Run.is_match (c y)).
Proof.
  induction r as [|a|atoms|r IH n|r1 IH1 r2 IH2| |]; simpl; intros x c; auto.
  - unfold Run.CharacterSetMatcher_state, CharacterSetMatcher.
    destruct (rest x); auto. destruct (char_matches _ _ _ _); auto.
  - unfold Run.CharacterSetMatcher_state, CharacterSetMatcher.
    destruct (rest x); auto. destruct (char_matches _ _ _ _); auto.
  - revert x. induction n as [|k IHk]; intros x; auto.
    rewrite IH. apply matcher_ext. intros y. apply IHk.
  - rewrite IH1. apply matcher_ext. intros y. apply IH2.
  - destruct (Nat.eqb _ _); auto.
  - destruct (rest x); auto.
Qed.

Lemma exec_loop_match R i s :
  Run.sticky R = false ->
  Run.is_match (Run.exec_loop unicode_upper R i s)
  = exec_from unicode_upper (Run.ignoreCase R) (Run.OriginalSource R) i s.
Proof.
  intros Hs. revert i; induction s as [|ch s IH]; intros i; simpl; rewrite Hs.
  - rewrite <- (matcher_state_match _ _ {| endIndex := i; rest := [] |}
                  (fun y => Some y)).
    destruct (Run.matcher_state _ _ _ _ _); reflexivity.
  - rewrite <- (matcher_state_match _ _ {| endIndex := i; rest := ch :: s |}
                  (fun y => Some y)).
    destruct (Run.matcher_state _ _ _ _ _); simpl; auto.
Qed.

(** A pattern without [g] and [y]: [exec] searches from 0 whatever its
    [lastIndex] is, and leaves the object as it was. *)
Lemma RegExpBuiltinExec_still R s :
  Run.global R = false -> Run.sticky R = false ->
  Run.RegExpBuiltinExec unicode_upper R s
  = (fst (Run.RegExpBuiltinExec unicode_upper R s), R)
  /\ Run.is_match (fst (Run.RegExpBuiltinExec unicode_upper R s))
     = exec_from unicode_upper (Run.ignoreCase R) (Run.OriginalSource R) 0 s.
Proof.
  intros Hg Hs. unfold Run.RegExpBuiltinExec. rewrite Hg, Hs. simpl.
  rewrite <- (exec_loop_match R 0 s Hs).
  destruct (Run.exec_loop unicode_upper R 0 s); simpl; auto.
Qed.

Lemma nth_error_fresh {A} (l : list A) a :
  nth_error (l ++ [a]) (List.length l) = Some a.
Proof.
  induction l; simpl; auto.
Qed.

Lemma bind_run {A B} (m : Run.M A) (k : A -> Run.M B) realm a realm' :
  m realm = (a, realm') -> Run.bind m k realm = k a realm'.
Proof.
  intros E. unfold Run.bind. rewrite E. reflexivity.
Qed.

(** The test of a literal without [g] and [y], made for the call: the
    answer of [RegExp_test], on any realm; the console is left alone. *)
Lemma literal_test re flags (v : value) realm :
  Run.has_flag "g" flags = false -> Run.has_flag "y" flags = false ->
  Run.has_flag "i" flags = ignoreCase_flag re ->
  (typeof v =? "string")%string = true ->
  exists regs,
    Run.bind (Run.RegExpCreate (pattern re) flags)
      (fun place => Run.test unicode_upper place v) realm
    = (RegExp_test unicode_upper re v,
       {| Run.regexps := regs; Run.console := Run.console realm |}).
Proof.
  intros Hg Hy Hi Hv. apply typeof_string in Hv as (s & ->).
  unfold Run.bind, Run.RegExpCreate, Run.test; cbn [Run.regexps Run.console].
  rewrite nth_error_fresh.
  match goal with
  | |- context [Run.RegExpBuiltinExec _ ?R s] =>
      destruct (RegExpBuiltinExec_still R s Hg Hy) as [E1 E2]; rewrite E1
  end.
  rewrite E2. cbn [Run.ignoreCase Run.OriginalSource]. rewrite Hi.
  eexists; reflexivity.
Qed.

Lemma run_isValidEthereumAddress v realm :
  exists regs,
    Run.isValidEthereumAddress unicode_upper v realm
    = (isValidEthereumAddress unicode_upper v,
       {| Run.regexps := regs; Run.console := Run.console realm |}).
Proof.
  unfold Run.isValidEthereumAddress, isValidEthereumAddress.
  destruct (typeof v =? "string")%string eqn:Hv.
  - apply (literal_test address_re "" v realm); auto.
  - destruct realm; eexists; reflexivity.
Qed.

Lemma run_isValidRoomId v realm :
  exists regs,
    Run.isValidRoomId unicode_upper v realm
    = (isValidRoomId unicode_upper v,
       {| Run.regexps := regs; Run.console := Run.console realm |}).
Proof.
  unfold Run.isValidRoomId, isValidRoomId.
  destruct (typeof v =? "string")%string eqn:Hv.
  - apply (literal_test room_id_re "i" v realm); auto.
  - destruct realm; eexists; reflexivity.
Qed.

Ltac run_call lemma :=
  match goal with
  | |- context [Run.bind (?f unicode_upper ?v) _ ?realm] =>
      let regs := fresh "regs" in let E := fresh "E" in
      destruct (lemma v realm) as [regs E];
      rewrite (bind_run _ _ _ _ _ E); clear E
  end.

(** The validators on the realm return what the validators on the console
    return, and write the same lines. *)
Lemma run_validateJoinRoomPayload payload realm :
  exists regs,
    Run.validateJoinRoomPayload unicode_upper payload realm
    = (fst (validateJoinRoomPayload unicode_upper payload (Run.console realm)),
       {| Run.regexps := regs;
          Run.console :=
            snd (validateJoinRoomPayload unicode_upper payload
                   (Run.console realm)) |}).
Proof.
  unfold Run.validateJoinRoomPayload, validateJoinRoomPayload.
  destruct (negb (ToBoolean payload) || _);
    [destruct realm; eexists; reflexivity|].
  destruct (negb (ToBoolean (Get payload "eoa")));
    [destruct realm; eexists; reflexivity|].
  run_call run_isValidEthereumAddress.
  destruct (negb (isValidEthereumAddress _ _)); [eexists; reflexivity|].
  erewrite bind_run
    with (a := negb (is_undefined (Get payload "betAmount"))
               && negb (isValidBetAmount (Get payload "betAmount")))
    by (destruct (negb (is_undefined _)); reflexivity).
  destruct (negb (is_undefined _) && negb (isValidBetAmount _));
    [eexists; reflexivity|].
  destruct (is_undefined (Get payload "roomId")); [eexists; reflexivity|].
  run_call run_isValidRoomId.
  destruct (negb (isValidRoomId _ _)); eexists; reflexivity.
Qed.

Lemma run_validateDirectionPayload payload realm :
  exists regs,
    Run.validateDirectionPayload unicode_upper payload realm
    = (fst (validateDirectionPayload unicode_upper payload (Run.console realm)),
       {| Run.regexps := regs; Run.console := Run.console realm |}).
Proof.
  unfold Run.validateDirectionPayload, validateDirectionPayload.
  destruct (negb (ToBoolean payload) || _);
    [destruct realm; eexists; reflexivity|].
  destruct (negb (ToBoolean (Get payload "roomId")));
    [destruct realm; eexists; reflexivity|].
  run_call run_isValidRoomId.
  destruct (negb (isValidRoomId _ _)); [eexists; reflexivity|].
  destruct (negb (ToBoolean (Get payload "direction"))); [eexists; reflexivity|].
  erewrite bind_run with (a := isValidDirection (Get payload "direction"))
    by reflexivity.
  destruct (negb (isValidDirection _)); eexists; reflexivity.
Qed.


(** With one pattern object kept between the calls and the [g] flag, the
    same test of the same address answers [true], then [false]: what a
    call returns can depend on the calls before it. *)
Lemma kept_global_pattern_alternates :
  let realm0 :=
    snd (Run.RegExpCreate (pattern address_re) "g"
           {| Run.regexps := []; Run.console := [] |}) in
  Run.first_result (Run.test_with_kept_pattern unicode_upper 0)
    Sample.address realm0 = true
  /\ Run.second_result (Run.test_with_kept_pattern unicode_upper 0)
       Sample.address realm0 = false.
Proof.
  split; reflexivity.
Qed.

(** C8.  Each of the six functions, called a second time on the same input
    in the realm the first call leaves, returns what the first call
    returned: the same boolean, or the same [success], [error] and flags.
    The answer is that of a call in any other realm too.  The patterns are
    made anew by each call and have neither [g] nor [y], so no [lastIndex]
    is carried over; the log line of a success of
    [validateJoinRoomPayload] is written once more, and no other call
    writes to the console. *)
Theorem validators_idempotent :
  forall (input : value) (realm realm' : Run.Realm),
    let address := Run.isValidEthereumAddress unicode_upper in
    let room := Run.isValidRoomId unicode_upper in
    let join := Run.validateJoinRoomPayload unicode_upper in
    let direction := Run.validateDirectionPayload unicode_upper in
    (Run.second_result address input realm = Run.first_result address input realm
     /\ Run.second_result room input realm = Run.first_result room input realm
     /\ Run.second_result Run.isValidDirection input realm
        = Run.first_result Run.isValidDirection input realm
     /\ Run.second_result Run.isValidBetAmount input realm
        = Run.first_result Run.isValidBetAmount input realm
     /\ Run.second_result join input realm = Run.first_result join input realm
     /\ Run.second_result direction input realm
        = Run.first_result direction input realm)
    /\ (Run.first_result address input realm' = Run.first_result address input realm
        /\ Run.first_result room input realm' = Run.first_result room input realm
        /\ Run.first_result Run.isValidDirection input realm'
           = Run.first_result Run.isValidDirection input realm
        /\ Run.first_result Run.isValidBetAmount input realm'
           = Run.first_result Run.isValidBetAmount input realm
        /\ Run.first_result join input realm' = Run.first_result join input realm
        /\ Run.first_result direction input realm'
           = Run.first_result direction input realm)
    /\ (exists lines,
          Run.console (snd (join input realm)) = Run.console realm ++ lines
          /\ Run.console (snd (join input (snd (join input realm))))
             = Run.console (snd (join input realm)) ++ lines)
    /\ Run.console (snd (direction input realm)) = Run.console realm
    /\ Run.console (snd (address input realm)) = Run.console realm
    /\ Run.console (snd (room input realm)) = Run.console realm.
Proof.
  intros input realm realm' address room join direction.
  subst address room join direction.
  unfold Run.second_result, Run.first_result.
  assert (A : forall r, fst (Run.isValidEthereumAddress unicode_upper input r)
                        = isValidEthereumAddress unicode_upper input).
  { intros r. destruct (run_isValidEthereumAddress input r) as [? ->]. reflexivity. }
  assert (R : forall r, fst (Run.isValidRoomId unicode_upper input r)
                        = isValidRoomId unicode_upper input).
  { intros r. destruct (run_isValidRoomId input r) as [? ->]. reflexivity. }
  assert (J : forall r, fst (Run.validateJoinRoomPayload unicode_upper input r)
                        = fst (validateJoinRoomPayload unicode_upper input [])).
  { intros r. destruct (run_validateJoinRoomPayload input r) as [? ->].
    cbn [fst]. rewrite validateJoinRoomPayload_console. reflexivity. }
  assert (D : forall r, fst (Run.validateDirectionPayload unicode_upper input r)
                        = fst (validateDirectionPayload unicode_upper input [])).
  { intros r. destruct (run_validateDirectionPayload input r) as [? ->].
    cbn [fst]. rewrite validateDirectionPayload_console. reflexivity. }
  rewrite !A, !R, !J, !D.
  split; [repeat split|]. split; [repeat split|]. split; [|split; [|split]].
  - destruct (run_validateJoinRoomPayload input realm) as [regs ->].
    cbn [snd Run.console].
    destruct (run_validateJoinRoomPayload input
                {| Run.regexps := regs;
                   Run.console :=
                     snd (validateJoinRoomPayload unicode_upper input
                            (Run.console realm)) |}) as [regs' ->].
    cbn [snd Run.console].
    rewrite (validateJoinRoomPayload_console unicode_upper input (Run.console realm)).
    cbn [snd].
    rewrite (validateJoinRoomPayload_console unicode_upper input (_ ++ _)).
    cbn [snd]. eexists; split; reflexivity.
  - destruct (run_validateDirectionPayload input realm) as [? ->]. reflexivity.
  - destruct (run_isValidEthereumAddress input realm) as [? ->]. reflexivity.
  - destruct (run_isValidRoomId input realm) as [? ->]. reflexivity.
Qed.

End RunCorrect.

(* ================================================================== *)
(** * What a result tells about the payload *)
(* ================================================================== *)

(** A valid direction is truthy. *)
Lemma isValidDirection_truthy v : isValidDirection v = true -> ToBoolean v = true.
Proof.
  intros H. apply isValidDirection_iff in H as (s & -> & H). simpl in H.
  destruct H as [<-|[<-|[<-|[<-|[]]]]]; reflexivity.
Qed.

Section Diagnosis.

Variable unicode_upper : code_unit -> js_string.

(** The tests of the two validators, taken as booleans one by one: the
    facts that tie them to the propositions of the statements are put in
    front of the goal, then every test is split in its two values. *)
Ltac settle := simpl; intuition congruence.

Ltac join_tests payload :=
  unfold validateJoinRoomPayload, object_payload;
  generalize (String.eqb_eq (typeof payload) "object");
  generalize (is_undefined_iff (Get payload "betAmount"));
  generalize (is_undefined_iff (Get payload "roomId"));
  generalize (valid_address_truthy unicode_upper (Get payload "eoa"));
  destruct (ToBoolean payload); [|settle];
  destruct (typeof payload =? "object")%string; [|settle];
  destruct (ToBoolean (Get payload "eoa")); [|settle];
  destruct (isValidEthereumAddress unicode_upper (Get payload "eoa")); [|settle];
  destruct (is_undefined (Get payload "betAmount"));
  destruct (isValidBetAmount (Get payload "betAmount"));
  destruct (is_undefined (Get payload "roomId"));
  destruct (isValidRoomId unicode_upper (Get payload "roomId"));
  settle.

Ltac direction_tests payload :=
  unfold validateDirectionPayload, object_payload;
  generalize (String.eqb_eq (typeof payload) "object");
  generalize (valid_room_truthy unicode_upper (Get payload "roomId"));
  destruct (ToBoolean payload); [|settle];
  destruct (typeof payload =? "object")%string; [|settle];
  destruct (ToBoolean (Get payload "roomId")); [|settle];
  destruct (isValidRoomId unicode_upper (Get payload "roomId")); [|settle];
  destruct (ToBoolean (Get payload "direction")); [|settle];
  destruct (isValidDirection (Get payload "direction"));
  settle.

(** X1.  [validateJoinRoomPayload] succeeds exactly on an object whose
    [eoa] is a valid address, whose [betAmount] is [undefined] or a valid
    amount, and whose [roomId] is [undefined] or a valid room id. *)
Theorem validateJoinRoomPayload_success_iff :
  forall (payload : value) (console : Console),
    success (fst (validateJoinRoomPayload unicode_upper payload console)) = true
    <-> object_payload payload
        /\ isValidEthereumAddress unicode_upper (Get payload "eoa") = true
        /\ (Get payload "betAmount" = VUndefined
            \/ isValidBetAmount (Get payload "betAmount") = true)
        /\ (Get payload "roomId" = VUndefined
            \/ isValidRoomId unicode_upper (Get payload "roomId") = true).
Proof.
  intros payload console. join_tests payload.
Qed.

(** X2.  [validateDirectionPayload] succeeds exactly on an object whose
    [roomId] is a valid room id and whose [direction] is a valid
    direction. *)
Theorem validateDirectionPayload_success_iff :
  forall (payload : value) (console : Console),
    success (fst (validateDirectionPayload unicode_upper payload console)) = true
    <-> object_payload payload
        /\ isValidRoomId unicode_upper (Get payload "roomId") = true
        /\ isValidDirection (Get payload "direction") = true.
Proof.
  intros payload console.
  generalize (isValidDirection_truthy (Get payload "direction")).
  direction_tests payload.
Qed.

(** X3.  The message of a failure of [validateJoinRoomPayload] names the
    check that failed: each message is returned in one case of the
    contract only, so a caller can read the cause off the message. *)
Theorem validateJoinRoomPayload_error_cause :
  forall (payload : value) (console : Console),
    let eoa := Get payload "eoa" in
    let betAmount := Get payload "betAmount" in
    let roomId := Get payload "roomId" in
    let r := fst (validateJoinRoomPayload unicode_upper payload console) in
    (error r = Some "Invalid payload format"%string
     <-> ~ object_payload payload)
    /\ (error r = Some "Ethereum address is required"%string
        <-> object_payload payload /\ ToBoolean eoa = false)
    /\ (error r = Some "Invalid Ethereum address format"%string
        <-> object_payload payload /\ ToBoolean eoa = true
            /\ isValidEthereumAddress unicode_upper eoa = false)
    /\ (error r = Some "Invalid bet amount. Must be 0, 0.01, 0.1, 1, or 2"%string
        <-> object_payload payload
            /\ isValidEthereumAddress unicode_upper eoa = true
            /\ betAmount <> VUndefined
            /\ isValidBetAmount betAmount = false)
    /\ (error r = Some "Invalid room ID format"%string
        <-> object_payload payload
            /\ isValidEthereumAddress unicode_upper eoa = true
            /\ (betAmount = VUndefined \/ isValidBetAmount betAmount = true)
            /\ roomId <> VUndefined
            /\ isValidRoomId unicode_upper roomId = false).
Proof.
  intros payload console eoa betAmount roomId r; subst eoa betAmount roomId r.
  join_tests payload.
Qed.

(** X4.  The message of a failure of [validateDirectionPayload] names the
    check that failed. *)
Theorem validateDirectionPayload_error_cause :
  forall (payload : value) (console : Console),
    let roomId := Get payload "roomId" in
    let direction := Get payload "direction" in
    let r := fst (validateDirectionPayload unicode_upper payload console) in
    (error r = Some "Invalid payload format"%string
     <-> ~ object_payload payload)
    /\ (error r = Some "Room ID is required"%string
        <-> object_payload payload /\ ToBoolean roomId = false)
    /\ (error r = Some "Invalid room ID format"%string
        <-> object_payload payload /\ ToBoolean roomId = true
            /\ isValidRoomId unicode_upper roomId = false)
    /\ (error r = Some "Direction is required"%string
        <-> object_payload payload
            /\ isValidRoomId unicode_upper roomId = true
            /\ ToBoolean direction = false)
    /\ (error r = Some "Invalid direction format (must be UP, DOWN, LEFT, or RIGHT)"%string
        <-> object_payload payload
            /\ isValidRoomId unicode_upper roomId = true
            /\ ToBoolean direction = true
            /\ isValidDirection direction = false).
Proof.
  intros payload console roomId direction r; subst roomId direction r.
  direction_tests payload.
Qed.

End Diagnosis.

(* ================================================================== *)
(** * The accepted strings *)
(* ================================================================== *)

Lemma hex_digit_ascii ch : hex_digit ch -> is_ascii ch.
Proof.
  unfold hex_digit, in_range, is_ascii; cbv [cu N_of_ascii]; simpl. lia.
Qed.

Lemma hex_group_ascii n w : hex_group n w -> Forall is_ascii w.
Proof.
  intros [_ H]. eapply Forall_impl; [|exact H]. apply hex_digit_ascii.
Qed.

Lemma address_form_length s :
  ethereum_address_form s -> List.length s = 42 /\ Forall is_ascii s.
Proof.
  intros (w & -> & Hw). split.
  - destruct Hw as [Hl _]. simpl. rewrite Hl. reflexivity.
  - repeat constructor. now apply hex_group_ascii in Hw.
Qed.

Lemma uuid_form_length s :
  uuid_v4_form s -> List.length s = 36 /\ Forall is_ascii s.
Proof.
  intros (g1 & g2 & g3 & g4 & g5 & -> & H1 & H2 & H3 & H4 & H5 & _). split.
  - destruct H1 as [L1 _], H2 as [L2 _], H3 as [L3 _], H4 as [L4 _], H5 as [L5 _].
    rewrite !length_app, L1, L2, L3, L4, L5. reflexivity.
  - apply hex_group_ascii in H1, H2, H3, H4, H5.
    repeat (apply Forall_app; split); auto; repeat constructor.
Qed.

(** Case, letter by letter. *)
Lemma ascii_upper_cases ch :
  ((97 <= ch <= 122)%N /\ ascii_upper ch = (ch - 32)%N)
  \/ (~ (97 <= ch <= 122)%N /\ ascii_upper ch = ch).
Proof.
  unfold ascii_upper.
  destruct (N.leb_spec 97 ch); destruct (N.leb_spec ch 122); simpl; lia.
Qed.

Ltac upper_cases :=
  repeat match goal with
         | |- context [ascii_upper ?x] =>
             let H := fresh in
             destruct (ascii_upper_cases x) as [[? H]|[? H]];
             rewrite H in *; clear H
         | K : context [ascii_upper ?x] |- _ =>
             let H := fresh in
             destruct (ascii_upper_cases x) as [[? H]|[? H]];
             rewrite H in *; clear H
         end;
  try lia.

Lemma same_case_sym s t : same_up_to_case s t -> same_up_to_case t s.
Proof.
  unfold same_up_to_case. induction 1; constructor; auto.
Qed.

Lemma same_case_upper s : same_up_to_case (map ascii_upper s) s.
Proof.
  unfold same_up_to_case. induction s as [|ch s IH]; constructor; auto.
  upper_cases.
Qed.

Lemma hex_digit_same_case a b :
  ascii_upper a = ascii_upper b -> hex_digit a -> hex_digit b.
Proof.
  unfold hex_digit, in_range; cbv [cu N_of_ascii]; simpl. upper_cases.
Qed.

Lemma variant_same_case a b :
  ascii_upper a = ascii_upper b -> variant_nibble a -> variant_nibble b.
Proof.
  unfold variant_nibble.
  cbv [js list_ascii_of_string map cu N_of_ascii In]; simpl. upper_cases.
Qed.

Lemma no_letter_same_case a b :
  (a < 65)%N -> ascii_upper a = ascii_upper b -> b = a.
Proof.
  upper_cases.
Qed.

Lemma hex_group_same_case n w w' :
  same_up_to_case w w' -> hex_group n w -> hex_group n w'.
Proof.
  intros H [Hl Hf]. split.
  - rewrite <- Hl. symmetry. eapply Forall2_length; eauto.
  - clear Hl. induction H; inversion Hf; subst; constructor; auto.
    eapply hex_digit_same_case; eauto.
Qed.

Lemma literal_same_case (a : code_unit) t :
  (a < 65)%N -> same_up_to_case [a] t -> t = [a].
Proof.
  intros Ha H. inversion H as [|? b ? l' Hab Hl]; subst. inversion Hl; subst.
  f_equal. now apply no_letter_same_case.
Qed.

Ltac split_case H g Hg t :=
  apply Forall2_app_inv_l in H; destruct H as (g & t & Hg & H & ->).

Lemma uuid_form_same_case s t :
  same_up_to_case s t -> uuid_v4_form s -> uuid_v4_form t.
Proof.
  intros H (g1 & g2 & g3 & g4 & g5 & -> & H1 & H2 & H3 & H4 & H5 & E3 & v & E4 & Hv).
  unfold same_up_to_case in H.
  split_case H g1' S1 t1. split_case H d1 D1 t2. split_case H g2' S2 t3.
  split_case H d2 D2 t4. split_case H g3' S3 t5. split_case H d3 D3 t6.
  split_case H g4' S4 t7. split_case H d4 D4 g5'.
  apply literal_same_case in D1, D2, D3, D4; try reflexivity. subst.
  exists g1', g2', g3', g4', g5'. split; [reflexivity|].
  do 5 (split; [eapply hex_group_same_case; eassumption|]). split.
  - destruct S3 as [|a b ? ? Hab _]; [discriminate|]. injection E3 as ->.
    simpl. f_equal. now apply no_letter_same_case.
  - destruct S4 as [|a b ? ? Hab _]; [discriminate|]. injection E4 as ->.
    exists b. split; [reflexivity|]. eapply variant_same_case; eauto.
Qed.

Section Formats.

Variable unicode_upper : code_unit -> js_string.

(** X5.  [isValidRoomId] does not look at the case of letters: two strings
    that differ only in the case of their ASCII letters are both accepted
    or both rejected. *)
Theorem isValidRoomId_case_insensitive :
  forall s t : js_string,
    same_up_to_case s t ->
    isValidRoomId unicode_upper (VString s)
    = isValidRoomId unicode_upper (VString t).
Proof.
  intros s t H. apply eq_iff_eq_true. rewrite !isValidRoomId_iff. split.
  - intros (s' & E & F). injection E as <-. exists t; split; auto.
    eapply uuid_form_same_case; eauto.
  - intros (t' & E & F). injection E as <-. exists s; split; auto.
    eapply uuid_form_same_case; [apply same_case_sym|]; eauto.
Qed.

(** X6.  [isValidEthereumAddress] does not look at the case of the 40
    hexadecimal characters (no checksum is read off the case), but the
    prefix is the lower-case ['0x'] only: a string that starts with ['0X']
    is rejected. *)
Theorem isValidEthereumAddress_case :
  (forall w : js_string,
     isValidEthereumAddress unicode_upper (VString (js "0X" ++ w)) = false)
  /\ (forall w w' : js_string,
        same_up_to_case w w' ->
        isValidEthereumAddress unicode_upper (VString (js "0x" ++ w))
        = isValidEthereumAddress unicode_upper (VString (js "0x" ++ w'))).
Proof.
  split.
  - intros w. apply not_true_is_false. intros H.
    apply isValidEthereumAddress_iff in H as (s & E & w0 & -> & _).
    discriminate E.
  - assert (K : forall w w', same_up_to_case w w' ->
                isValidEthereumAddress unicode_upper (VString (js "0x" ++ w)) = true ->
                isValidEthereumAddress unicode_upper (VString (js "0x" ++ w')) = true).
    { intros w w' Hc H.
      apply isValidEthereumAddress_iff in H as (s & E & w0 & -> & Hw).
      injection E as ->. apply isValidEthereumAddress_iff.
      eexists; split; [reflexivity|]. exists w'; split; [reflexivity|].
      eapply hex_group_same_case; eauto. }
    intros w w' Hc. apply eq_iff_eq_true. split; apply K; auto.
    now apply same_case_sym.
Qed.

Lemma valid_address_length v :
  isValidEthereumAddress unicode_upper v = true ->
  exists s, v = VString s /\ List.length s = 42 /\ Forall is_ascii s.
Proof.
  intros H. apply isValidEthereumAddress_iff in H as (s & -> & F).
  exists s; split; auto. now apply address_form_length.
Qed.

Lemma valid_room_length v :
  isValidRoomId unicode_upper v = true ->
  exists s, v = VString s /\ List.length s = 36 /\ Forall is_ascii s.
Proof.
  intros H. apply isValidRoomId_iff in H as (s & -> & F).
  exists s; split; auto. now apply uuid_form_length.
Qed.

(** X7.  A valid address is a string of exactly 42 code units and a valid
    room id one of exactly 36, all of them ASCII: the case folding of the
    room-id pattern lets no character outside ASCII through. *)
Theorem valid_strings_length_and_ascii :
  (forall v : value,
     isValidEthereumAddress unicode_upper v = true ->
     exists s, v = VString s /\ List.length s = 42 /\ Forall is_ascii s)
  /\ (forall v : value,
        isValidRoomId unicode_upper v = true ->
        exists s, v = VString s /\ List.length s = 36 /\ Forall is_ascii s).
Proof.
  split; [apply valid_address_length | apply valid_room_length].
Qed.

Lemma padding_empty (s pre post : js_string) n :
  List.length s = n -> List.length (pre ++ s ++ post) = n ->
  pre = [] /\ post = [].
Proof.
  rewrite !length_app. intros Hs H.
  destruct pre, post; simpl in H; try lia; auto.
Qed.

(** X8.  The two patterns are anchored at both ends: a valid address or
    room id with anything before or after it (a space, a line feed) is
    no longer valid. *)
Theorem valid_strings_take_no_padding :
  (forall s pre post : js_string,
     isValidEthereumAddress unicode_upper (VString s) = true ->
     isValidEthereumAddress unicode_upper (VString (pre ++ s ++ post)) = true ->
     pre = [] /\ post = [])
  /\ (forall s pre post : js_string,
        isValidRoomId unicode_upper (VString s) = true ->
        isValidRoomId unicode_upper (VString (pre ++ s ++ post)) = true ->
        pre = [] /\ post = []).
Proof.
  split; intros s pre post H1 H2.
  - apply valid_address_length in H1 as (s1 & E1 & L1 & _).
    apply valid_address_length in H2 as (s2 & E2 & L2 & _).
    injection E1 as <-. injection E2 as <-.
    exact (padding_empty _ _ _ _ L1 L2).
  - apply valid_room_length in H1 as (s1 & E1 & L1 & _).
    apply valid_room_length in H2 as (s2 & E2 & L2 & _).
    injection E1 as <-. injection E2 as <-.
    exact (padding_empty _ _ _ _ L1 L2).
Qed.

End Formats.

(** X5 at the sample room id, written in lower and in upper case. *)
Lemma isValidRoomId_case_insensitive_witness :
  isValidRoomId Sample.plain_table (VString Sample.room_lower)
  = isValidRoomId Sample.plain_table (VString Sample.room_upper).
Proof.
  apply (isValidRoomId_case_insensitive Sample.plain_table
           Sample.room_lower Sample.room_upper).
  repeat constructor.
Defined.

(* ================================================================== *)
(** * The accepted amounts *)
(* ================================================================== *)

Lemma accepted_amount_cases v :
  isValidBetAmount v = true ->
  exists x, v = VNumber x /\ In x [0; -0; 0.01; 0.1; 1; 2]%float.
Proof.
  intros H. apply isValidBetAmount_iff in H as (x & -> & a & Ha & H).
  exists x; split; auto. simpl in Ha.
  destruct Ha as [<-|[<-|[<-|[<-|[<-|[]]]]]].
  - apply eqb_zero_eq in H as [-> | ->]; simpl; auto.
  - eapply eqb_finite_eq in H; [subst; simpl; auto 7 | reflexivity].
  - eapply eqb_finite_eq in H; [subst; simpl; auto 7 | reflexivity].
  - eapply eqb_finite_eq in H; [subst; simpl; auto 7 | reflexivity].
  - eapply eqb_finite_eq in H; [subst; simpl; auto 7 | reflexivity].
Qed.

(** X9.  An accepted bet amount is a finite number between 0 and 2: no
    negative amount, no infinity and no NaN passes. *)
Theorem isValidBetAmount_range :
  forall v : value,
    isValidBetAmount v = true ->
    exists x, v = VNumber x
              /\ PrimFloat.leb 0 x = true /\ PrimFloat.leb x 2 = true
              /\ PrimFloat.is_finite x = true.
Proof.
  intros v H. apply accepted_amount_cases in H as (x & -> & H).
  exists x; split; auto. simpl in H.
  destruct H as [<-|[<-|[<-|[<-|[<-|[<-|[]]]]]]]; repeat split; reflexivity.
Qed.

(** X9 at 0.1. *)
Lemma isValidBetAmount_range_witness :
  exists x, VNumber 0.1 = VNumber x
            /\ PrimFloat.leb 0 x = true /\ PrimFloat.leb x 2 = true
            /\ PrimFloat.is_finite x = true.
Proof.
  apply (isValidBetAmount_range (VNumber 0.1)). reflexivity.
Defined.

(** What [betAmount || 0] logs for a bet amount that passed the check. *)
Lemma logged_amount bet :
  is_undefined bet = true \/ isValidBetAmount bet = true ->
  exists a, logical_or bet (VNumber 0) = VNumber a
            /\ In a [0; 0.01; 0.1; 1; 2]%float.
Proof.
  intros [H|H].
  - apply is_undefined_iff in H as ->. exists 0%float; simpl; auto.
  - apply accepted_amount_cases in H as (x & -> & H). simpl in H.
    destruct H as [<-|[<-|[<-|[<-|[<-|[<-|[]]]]]]];
      eexists; (split; [reflexivity|]); simpl; auto 7.
Qed.

Lemma logged_zero bet :
  bet = VUndefined \/ bet = VNumber 0 \/ bet = VNumber (-0) ->
  logical_or bet (VNumber 0) = VNumber 0.
Proof.
  intros [->|[->| ->]]; reflexivity.
Qed.

Lemma logged_itself x :
  isValidBetAmount (VNumber x) = true ->
  x <> 0%float -> x <> (-0)%float ->
  logical_or (VNumber x) (VNumber 0) = VNumber x.
Proof.
  intros H H0 H1. apply accepted_amount_cases in H as (x' & E & H).
  injection E as <-. simpl in H.
  destruct H as [<-|[<-|[<-|[<-|[<-|[<-|[]]]]]]]; try reflexivity;
    exfalso; auto.
Qed.

Section Logging.

Variable unicode_upper : code_unit -> js_string.

(** X10.  A success of [validateJoinRoomPayload] writes one line to the
    console, and the amount at its end is [betAmount || 0]: the number 0
    when [betAmount] is [undefined], [0] or [-0], and [betAmount] itself
    otherwise; so it is always one of the numbers 0, 0.01, 0.1, 1, 2. *)
Theorem validateJoinRoomPayload_logged_amount :
  forall (payload : value) (console : Console),
    success (fst (validateJoinRoomPayload unicode_upper payload console)) = true ->
    let betAmount := Get payload "betAmount" in
    let line :=
      last (snd (validateJoinRoomPayload unicode_upper payload console)) [] in
    let logged := last line VUndefined in
    snd (validateJoinRoomPayload unicode_upper payload console)
    = console ++ [line]
    /\ (betAmount = VUndefined \/ betAmount = VNumber 0
        \/ betAmount = VNumber (-0) ->
        logged = VNumber 0)
    /\ (forall x : float,
          betAmount = VNumber x -> x <> 0%float -> x <> (-0)%float ->
          logged = VNumber x)
    /\ exists a, logged = VNumber a /\ In a [0; 0.01; 0.1; 1; 2]%float.
Proof.
  intros payload console. unfold validateJoinRoomPayload, console_log.
  destruct (negb (ToBoolean payload) || _); [discriminate|].
  destruct (negb (ToBoolean (Get payload "eoa"))); [discriminate|].
  destruct (negb (isValidEthereumAddress _ _)); [discriminate|].
  destruct (negb (is_undefined (Get payload "betAmount"))
            && negb (isValidBetAmount (Get payload "betAmount"))) eqn:Hb;
    [discriminate|].
  assert (Hbet : is_undefined (Get payload "betAmount") = true
                 \/ isValidBetAmount (Get payload "betAmount") = true).
  { apply andb_false_iff in Hb as [Hb|Hb]; apply negb_false_iff in Hb; auto. }
  assert (Hx : forall x, Get payload "betAmount" = VNumber x ->
                         isValidBetAmount (VNumber x) = true).
  { intros x E. rewrite E in Hbet. destruct Hbet as [H|H]; [discriminate | exact H]. }
  pose proof (logged_amount _ Hbet) as Ha.
  pose proof (logged_zero (Get payload "betAmount")) as Hz.
  assert (Hi : forall x, Get payload "betAmount" = VNumber x ->
                         x <> 0%float -> x <> (-0)%float ->
                         logical_or (Get payload "betAmount") (VNumber 0)
                         = VNumber x).
  { intros x E H0 H1. rewrite E. apply logged_itself; auto. }
  destruct (is_undefined (Get payload "roomId")).
  - intros _; cbn [fst snd]. rewrite last_last. cbn [last].
    repeat split; auto.
  - destruct (negb (isValidRoomId _ _)); [discriminate|].
    intros _; cbn [fst snd]. rewrite last_last. cbn [last].
    repeat split; auto.
Qed.

End Logging.

(** X10 at [{eoa: address, betAmount: -0}]: the amount logged is [0]. *)
Lemma validateJoinRoomPayload_logged_amount_witness :
  last (last (snd (validateJoinRoomPayload Sample.plain_table
                     Sample.create_minus_zero [])) []) VUndefined
  = VNumber 0.
Proof.
  pose proof (validateJoinRoomPayload_logged_amount Sample.plain_table
                Sample.create_minus_zero [] eq_refl) as [_ [Zero _]].
  apply Zero. right; right; reflexivity.
Defined.

(* ================================================================== *)
(** * A bet amount that is there *)
(* ================================================================== *)

Section PresentBet.

Variable unicode_upper : code_unit -> js_string.

(** X11.  Only [undefined] counts as no bet amount.  On an object payload
    with a valid [eoa], a [betAmount] that is there but is not of type
    number ([null], a string such as "1", a boolean) fails with the
    bet-amount message, whatever the [roomId]. *)
Theorem present_betAmount_must_be_number :
  forall (payload : value) (console : Console),
    object_payload payload ->
    isValidEthereumAddress unicode_upper (Get payload "eoa") = true ->
    Get payload "betAmount" <> VUndefined ->
    typeof (Get payload "betAmount") <> "number"%string ->
    validateJoinRoomPayload unicode_upper payload console
    = (failure "Invalid bet amount. Must be 0, 0.01, 0.1, 1, or 2", console).
Proof.
  intros payload console Hp Ha Hb Ht.
  unfold validateJoinRoomPayload.
  rewrite (guard_pass _ Hp), (valid_address_truthy _ _ Ha), Ha.
  rewrite (is_undefined_false _ Hb).
  unfold isValidBetAmount. apply String.eqb_neq in Ht. rewrite Ht.
  reflexivity.
Qed.

End PresentBet.

(** X11 at [{eoa: address, betAmount: null}]. *)
Lemma present_betAmount_must_be_number_witness :
  validateJoinRoomPayload Sample.plain_table Sample.bet_null []
  = (failure "Invalid bet amount. Must be 0, 0.01, 0.1, 1, or 2", []).
Proof.
  apply (present_betAmount_must_be_number Sample.plain_table Sample.bet_null []).
  - split; reflexivity.
  - reflexivity.
  - discriminate.
  - discriminate.
Defined.
